(** * Formula resolution, parsing, convoy execution and overrides

    A shallow embedding of the formula command of gastown
    (package [cmd], file formula.go, and package [formula], file embed.go)
    together with the properties its specification states about it.

    Conventions of the embedding.
    - A Go [string] is a sequence of bytes: it is a [string] of Rocq, whose
      characters are the 256 values of [ascii].
    - A Go [int] that holds a length or an index is a [nat]; the result [-1]
      of [strings.Index] is [None].
    - A run-time panic (slice or index out of range) is the value [None] of
      the outermost [option]; a function that cannot panic is a plain
      function.
    - A nil pointer is [None]; a [map[string]string] is a [gmap string string].
    - What the process does to the outside world (the file system, the
      commands [bd] and [gt], the merge agent, the random source) is threaded
      through the functions as an explicit state. *)

From Stdlib Require Import String Ascii List Arith ZArith Lia Permutation DecimalString.
From stdpp Require Import base option list gmap strings.

Local Open Scope string_scope.
Local Open Scope nat_scope.
Local Open Scope list_scope.

(** Concatenation of strings, the [+] of Go. *)
Infix "+++" := String.append (at level 60, right associativity).

(** ** Characters and small strings *)

Definition ch (n : nat) : ascii := ascii_of_nat n.
Definition str1 (c : ascii) : string := String c EmptyString.

Definition nl : string := str1 (ch 10).
Definition dquote : ascii := ch 34.
Definition squote : ascii := ch 39.
Definition dq : string := str1 dquote.
Definition triple_quote : string := dq +++ dq +++ dq.

(** ** The package [strings] of Go, on byte strings *)

Fixpoint take_s (n : nat) (s : string) : string :=
  match n, s with
  | S k, String c r => String c (take_s k r)
  | _, _ => EmptyString
  end.

Fixpoint drop_s (n : nat) (s : string) : string :=
  match n, s with
  | S k, String _ r => drop_s k r
  | _, _ => s
  end.

(** [s[lo:hi]]: panics unless [lo <= hi <= len(s)]. *)
Definition slice (s : string) (lo hi : nat) : option string :=
  if (lo <=? hi) && (hi <=? String.length s)
  then Some (take_s (hi - lo) (drop_s lo s))
  else None.

(** [s[lo:]] and [s[:hi]]. *)
Definition slice_from (s : string) (lo : nat) : option string :=
  slice s lo (String.length s).
Definition slice_to (s : string) (hi : nat) : option string :=
  slice s 0 hi.

(** [s[i]]: panics unless [i < len(s)]. *)
Fixpoint byte_at (s : string) (i : nat) : option ascii :=
  match s, i with
  | EmptyString, _ => None
  | String c _, 0 => Some c
  | String _ r, S k => byte_at r k
  end.

Fixpoint strings_HasPrefix (s p : string) {struct p} : bool :=
  match p, s with
  | EmptyString, _ => true
  | String a p', String b s' => if Ascii.eqb a b then strings_HasPrefix s' p' else false
  | String _ _, EmptyString => false
  end.

(** [strings.Index]: the position of the first occurrence, [None] for -1. *)
Fixpoint strings_Index (s sub : string) : option nat :=
  if strings_HasPrefix s sub then Some 0
  else match s with
       | EmptyString => None
       | String _ r => S <$> strings_Index r sub
       end.

Definition strings_Contains (s sub : string) : bool :=
  match strings_Index s sub with Some _ => true | None => false end.

(** [genSplit] of Go with [sepSave = 0]: at most [n] pieces, cut at the
    successive first occurrences of [sep]. *)
Fixpoint genSplit (s sep : string) (n : nat) : list string :=
  match n with
  | 0 => []
  | 1 => [s]
  | S n' =>
      match strings_Index s sep with
      | None => [s]
      | Some m => take_s m s :: genSplit (drop_s (m + String.length sep) s) sep n'
      end
  end.

Definition strings_SplitN (s sep : string) (n : nat) : list string :=
  genSplit s sep n.

(** [strings.Split] for a non-empty separator.  Go calls [genSplit] with
    [n = Count(s, sep) + 1]; [len(s) + 1] bounds that number, and [genSplit]
    stops by itself at the last occurrence. *)
Definition strings_Split (s sep : string) : list string :=
  genSplit s sep (String.length s + 1).

Fixpoint strings_Join (l : list string) (sep : string) : string :=
  match l with
  | [] => EmptyString
  | [x] => x
  | x :: r => x +++ sep +++ strings_Join r sep
  end.

(** The white space of [unicode.IsSpace], as the UTF-8 byte sequences that
    encode it: the six ASCII characters, U+0085, U+00A0, U+1680,
    U+2000..U+200A, U+2028, U+2029, U+202F, U+205F and U+3000. *)
Definition bytes_s (l : list nat) : string := string_of_list_ascii (map ch l).

Definition space_encodings : list string :=
  map bytes_s
    ([ [9]; [10]; [11]; [12]; [13]; [32];
       [194; 133]; [194; 160]; [225; 154; 128] ]
     ++ map (fun k => [226; 128; 128 + k]) (seq 0 11)
     ++ [ [226; 128; 168]; [226; 128; 169]; [226; 128; 175];
          [226; 129; 159]; [227; 128; 128] ]).

(** The length of the white-space rune at the front of [s], if there is one.
    A byte sequence that is not valid UTF-8 decodes to U+FFFD, which is not
    white space. *)
Definition space_prefix (encs : list string) (s : string) : option nat :=
  String.length <$> List.find (strings_HasPrefix s) encs.

Fixpoint trim_left_by (encs : list string) (fuel : nat) (s : string) : string :=
  match fuel with
  | 0 => s
  | S f =>
      match space_prefix encs s with
      | Some (S k) => trim_left_by encs f (drop_s (S k) s)
      | _ => s
      end
  end.

Definition trim_left_space (s : string) : string :=
  trim_left_by space_encodings (String.length s) s.

(** A trailing rune is found by [utf8.DecodeLastRuneInString], which goes
    back to the nearest lead byte: the string ends in a white-space rune
    exactly when it ends in one of the encodings. *)
Definition trim_right_space (s : string) : string :=
  String.rev
    (trim_left_by (map String.rev space_encodings) (String.length s) (String.rev s)).

Definition strings_TrimSpace (s : string) : string :=
  trim_right_space (trim_left_space s).

(** [strings.Trim] with a cutset of ASCII characters: bytes of the cutset
    are removed at both ends. *)
Fixpoint in_cutset (c : ascii) (cutset : string) : bool :=
  match cutset with
  | EmptyString => false
  | String d r => Ascii.eqb c d || in_cutset c r
  end.

Fixpoint trim_left_cutset (s cutset : string) : string :=
  match s with
  | String c r => if in_cutset c cutset then trim_left_cutset r cutset else s
  | EmptyString => EmptyString
  end.

Definition strings_Trim (s cutset : string) : string :=
  String.rev (trim_left_cutset (String.rev (trim_left_cutset s cutset)) cutset).

(** [strings.ToLower] on ASCII text (the only text it is applied to here). *)
Definition lower_ascii (c : ascii) : ascii :=
  let n := nat_of_ascii c in
  if (65 <=? n) && (n <=? 90) then ascii_of_nat (n + 32) else c.

Fixpoint strings_ToLower (s : string) : string :=
  match s with
  | EmptyString => EmptyString
  | String c r => String (lower_ascii c) (strings_ToLower r)
  end.

(** ** The formula document (formula.go, [formulaData] and its parts) *)

Record formulaLeg := FormulaLeg {
  leg_ID : string;
  leg_Title : string;
  leg_Focus : string;
  leg_Description : string
}.

Record formulaSynthesis := FormulaSynthesis {
  syn_Title : string;
  syn_Description : string;
  syn_DependsOn : list string
}.

Record formulaOutput := FormulaOutput {
  out_Directory : string;
  out_LegPattern : string;
  out_Synthesis : string
}.

Record formulaData := FormulaData {
  f_Name : string;
  f_Description : string;
  f_Type : string;
  f_Legs : list formulaLeg;
  f_Synthesis : option formulaSynthesis;
  f_Prompts : gmap string string;
  f_Output : option formulaOutput
}.

(** The value of type [error]: [None] is [nil], [Some msg] an error with
    that message. *)
Definition error := option string.

(** ** The structural extractor *)

Definition is_empty (s : string) : bool :=
  match s with EmptyString => true | _ => false end.

(** The value part of [extractTOMLValue], after the line matched:
    one layer of quotes is removed when the value starts with a quote. *)
Definition unquote (val : string) : option string :=
  if 2 <=? String.length val then
    c ← byte_at val 0;
    if Ascii.eqb c dquote || Ascii.eqb c squote
    then slice val 1 (String.length val - 1)
    else Some val
  else Some val.

Fixpoint extractTOMLValue_lines (lines : list string) (key : string) : option string :=
  match lines with
  | [] => Some EmptyString
  | line :: rest =>
      let line := strings_TrimSpace line in
      if strings_HasPrefix line (key +++ " =") || strings_HasPrefix line (key +++ "=")
      then match strings_SplitN line "=" 2 with
           | [_; p1] => unquote (strings_TrimSpace p1)
           | _ => extractTOMLValue_lines rest key
           end
      else extractTOMLValue_lines rest key
  end.

Definition extractTOMLValue (content key : string) : option string :=
  extractTOMLValue_lines (strings_Split content nl) key.

Definition extractTOMLMultiline (content key : string) : option string :=
  let keyPattern := key +++ " = " +++ triple_quote in
  match strings_Index content keyPattern with
  | None => extractTOMLValue content key
  | Some idx =>
      let start := idx + String.length keyPattern in
      rest ← slice_from content start;
      match strings_Index rest triple_quote with
      | None => Some EmptyString
      | Some e =>
          body ← slice content start (start + e);
          Some (strings_TrimSpace body)
      end
  end.

(** The body of the loop of [extractLegs] for one piece after a marker:
    the leg it describes. *)
Definition legOfSection (section : string) : option formulaLeg :=
  let endIdx := default (String.length section) (strings_Index section "[[") in
  section ← slice_to section endIdx;
  id ← extractTOMLValue section "id";
  title ← extractTOMLValue section "title";
  focus ← extractTOMLValue section "focus";
  description ← extractTOMLMultiline section "description";
  Some (FormulaLeg id title focus description).

Fixpoint extractLegs_loop (sections : list string) (legs : list formulaLeg)
  : option (list formulaLeg) :=
  match sections with
  | [] => Some legs
  | section :: rest =>
      leg ← legOfSection section;
      extractLegs_loop rest (if is_empty (leg_ID leg) then legs else legs ++ [leg])
  end.

Definition extractLegs (content : string) : option (list formulaLeg) :=
  match strings_Split content "[[legs]]" with
  | [] => Some []
  | _ :: sections => extractLegs_loop sections []
  end.

(** The text of a singleton section: from its header to the next line that
    starts with a bracket, or to the end. [None] inside: no such header. *)
Definition sectionOf (content header : string) : option (option string) :=
  match strings_Index content header with
  | None => Some None
  | Some idx =>
      section ← slice_from content idx;
      tail ← slice_from section 1;
      match strings_Index tail (nl +++ "[") with
      | Some endIdx => Some <$> slice_to section (endIdx + 1)
      | None => Some (Some section)
      end
  end.

Fixpoint dependsOn_loop (deps : list string) (acc : list string) : list string :=
  match deps with
  | [] => acc
  | dep :: rest =>
      let dep := strings_Trim (strings_TrimSpace dep) (String dquote (str1 squote)) in
      dependsOn_loop rest (if is_empty dep then acc else acc ++ [dep])
  end.

(** The list that [extractSynthesis] puts in [DependsOn]. *)
Definition parseDependsOn (depsLine : string) : list string :=
  if is_empty depsLine then []
  else dependsOn_loop (strings_Split (strings_Trim depsLine "[]") ",") [].

Definition extractSynthesis (content : string) : option (option formulaSynthesis) :=
  osec ← sectionOf content "[synthesis]";
  match osec with
  | None => Some None
  | Some section =>
      title ← extractTOMLValue section "title";
      description ← extractTOMLMultiline section "description";
      depsLine ← extractTOMLValue section "depends_on";
      let syn := FormulaSynthesis title description (parseDependsOn depsLine) in
      if is_empty (syn_Title syn) && is_empty (syn_Description syn)
      then Some None
      else Some (Some syn)
  end.

Definition extractPrompts (content : string) : option (gmap string string) :=
  osec ← sectionOf content "[prompts]";
  match osec with
  | None => Some ∅
  | Some section =>
      base ← extractTOMLMultiline section "base";
      Some (if is_empty base then ∅ else <["base" := base]> ∅)
  end.

Definition extractOutput (content : string) : option (option formulaOutput) :=
  osec ← sectionOf content "[output]";
  match osec with
  | None => Some None
  | Some section =>
      directory ← extractTOMLValue section "directory";
      legPattern ← extractTOMLValue section "leg_pattern";
      synthesis ← extractTOMLValue section "synthesis";
      if is_empty directory && is_empty legPattern && is_empty synthesis
      then Some None
      else Some (Some (FormulaOutput directory legPattern synthesis))
  end.

(** [parseFormulaContent]: the document and the error it returns. *)
Definition parseFormulaContent (data : string) : option (formulaData * error) :=
  let content := data in
  name ← extractTOMLValue content "formula";
  description ← extractTOMLMultiline content "description";
  type ← extractTOMLValue content "type";
  legs ← extractLegs content;
  synthesis ← extractSynthesis content;
  prompts ← extractPrompts content;
  output ← extractOutput content;
  Some (FormulaData name description type legs synthesis prompts output, None).

(** The leg blocks of a text, before filtering: one per piece that follows
    a block-start marker. *)
Definition legBlocks (content : string) : option (list formulaLeg) :=
  mapM legOfSection (tail (strings_Split content "[[legs]]")).

(** No line of [content] assigns [key]: the test of [extractTOMLValue]
    fails on every line. *)
Definition key_absent (content key : string) : bool :=
  forallb
    (fun line =>
       negb (strings_HasPrefix (strings_TrimSpace line) (key +++ " =")
             || strings_HasPrefix (strings_TrimSpace line) (key +++ "=")))
    (strings_Split content nl).

(** Inputs used to exercise the parser. *)
Definition text (lines : list string) : string := strings_Join lines nl.

Definition malformed_input : string :=
  text [ "]]= [[ " +++ triple_quote +++ " [synthesi";
         "= 'x" +++ dq;
         "formula" ].

Definition synthesis_only_deps : string :=
  text [ "formula = 'review'";
         "[synthesis]";
         "depends_on = [" +++ dq +++ "sec" +++ dq +++ ", " +++ dq +++ "perf" +++ dq +++ "]";
         EmptyString ].

Definition legs_with_missing_id : string :=
  text [ "[[legs]]";
         "id = 'sec'";
         "title = 'Security'";
         "[[legs]]";
         "title = 'Untitled'";
         "focus = 'everything'";
         "description = 'a block without id'" ].

Definition synthesis_only_deps_section : string :=
  text [ "[synthesis]";
         "depends_on = [" +++ dq +++ "sec" +++ dq +++ ", " +++ dq +++ "perf" +++ dq +++ "]";
         EmptyString ].

(** ** The positional line comparator *)

Record LineDiff := MkLineDiff {
  ld_Type : string;   (* "changed", "added", "removed" *)
  ld_Left : string;
  ld_Right : string
}.

(** The loop of [findLineDifferences]: [i] is the index, [n] the number of
    iterations left ([maxLen - i]). A side that has no line at [i] keeps the
    zero value of its variable, the empty string. *)
Fixpoint findLineDifferences_loop (left right : list string) (i n : nat)
    (diffs : list LineDiff) : list LineDiff :=
  match n with
  | 0 => diffs
  | S n' =>
      let l := default EmptyString (left !! i) in
      let r := default EmptyString (right !! i) in
      let diffs' :=
        if String.eqb (strings_TrimSpace l) (strings_TrimSpace r) then diffs
        else if is_empty (strings_TrimSpace l) && is_empty (strings_TrimSpace r)
        then diffs
        else if length left <=? i
        then diffs ++ [MkLineDiff "added" EmptyString r]
        else if length right <=? i
        then diffs ++ [MkLineDiff "removed" l EmptyString]
        else diffs ++ [MkLineDiff "changed" l r]
      in
      findLineDifferences_loop left right (S i) n' diffs'
  end.

Definition findLineDifferences (left right : list string) : list LineDiff :=
  let maxLen := if length left <? length right then length right else length left in
  findLineDifferences_loop left right 0 maxLen [].

(** What one index contributes, in the words of the specification, with a
    missing line read as a blank one. *)
Definition lineDiffAt (left right : list string) (i : nat) : list LineDiff :=
  match left !! i, right !! i with
  | None, None => []
  | None, Some r =>
      if is_empty (strings_TrimSpace r) then []
      else [MkLineDiff "added" EmptyString r]
  | Some l, None =>
      if is_empty (strings_TrimSpace l) then []
      else [MkLineDiff "removed" l EmptyString]
  | Some l, Some r =>
      if String.eqb (strings_TrimSpace l) (strings_TrimSpace r) then []
      else [MkLineDiff "changed" l r]
  end.

(** The second clause of the specification read on its own: every index
    past the end of the left list yields an "added" difference that carries
    the right line. *)
Definition added_for_every_index_past_left : Prop :=
  forall (left right : list string) (i : nat) (r : string),
    length left <= i -> right !! i = Some r ->
    In (MkLineDiff "added" EmptyString r) (findLineDifferences left right).

(** ** The short identifier *)

(** The bits of a byte, most significant first. *)
Definition bits_of_byte (c : ascii) : list bool :=
  let '(Ascii b0 b1 b2 b3 b4 b5 b6 b7) := c in [b7; b6; b5; b4; b3; b2; b1; b0].

Fixpoint bits_of_string (s : string) : list bool :=
  match s with
  | EmptyString => []
  | String c r => bits_of_byte c ++ bits_of_string r
  end.

Definition b2n (b : bool) : nat := if b then 1 else 0.

(** The value of a group of five bits, most significant first. *)
Definition quintet (b4 b3 b2 b1 b0 : bool) : nat :=
  16 * b2n b4 + 8 * b2n b3 + 4 * b2n b2 + 2 * b2n b1 + b2n b0.

(** The bit stream cut in groups of five; the last group is completed with
    zero bits (RFC 4648, section 6). *)
Fixpoint quintets (bits : list bool) : list nat :=
  match bits with
  | [] => []
  | b4 :: b3 :: b2 :: b1 :: b0 :: r => quintet b4 b3 b2 b1 b0 :: quintets r
  | [b4; b3; b2; b1] => [quintet b4 b3 b2 b1 false]
  | [b4; b3; b2] => [quintet b4 b3 b2 false false]
  | [b4; b3] => [quintet b4 b3 false false false]
  | [b4] => [quintet b4 false false false false]
  end.

Definition base32_alphabet : string := "ABCDEFGHIJKLMNOPQRSTUVWXYZ234567".

Definition base32_char (q : nat) : ascii :=
  default (ch 61) (byte_at base32_alphabet q).

Fixpoint string_of_chars (l : list ascii) : string :=
  match l with
  | [] => EmptyString
  | c :: r => String c (string_of_chars r)
  end.

(** [base32.StdEncoding.EncodeToString]: the characters of the groups,
    then [=] up to a multiple of eight characters. *)
Definition base32_EncodeToString (src : string) : string :=
  let body := map base32_char (quintets (bits_of_string src)) in
  let pad := (8 - length body mod 8) mod 8 in
  string_of_chars (body ++ repeat (ch 61) pad).

(** [generateFormulaShortID], as a function of the three bytes that
    [rand.Read] put in [b]. *)
Definition generateFormulaShortID (b : ascii * ascii * ascii) : option string :=
  let '(b0, b1, b2) := b in
  enc ← slice_to (base32_EncodeToString (String b0 (String b1 (str1 b2)))) 5;
  Some (strings_ToLower enc).

Definition lower_base32_alphabet : string := "abcdefghijklmnopqrstuvwxyz234567".

(** The identifiers that can be produced are all found in a list of at
    most [n] strings. *)
Definition shortID_values_at_most (n : N) : Prop :=
  exists l : list string,
    (N.of_nat (length l) <= n)%N /\
    forall b, exists id, generateFormulaShortID b = Some id /\ In id l.

(** ** The convoy title *)

(** The title given to the convoy record: [convoyTitle] of
    [executeConvoyFormula], from [fmt.Sprintf("%s: %s", ...)] to the
    truncation. *)
Definition composedTitle (formulaName description : string) : string :=
  formulaName +++ ": " +++ description.

Definition convoyTitle (formulaName description : string) : option string :=
  let convoyTitle := composedTitle formulaName description in
  if 80 <? String.length convoyTitle
  then (p ← slice_to convoyTitle 77; Some (p +++ "..."))
  else Some convoyTitle.

Fixpoint chars_in (s cutset : string) : bool :=
  match s with
  | EmptyString => true
  | String c r => in_cutset c cutset && chars_in r cutset
  end.

(** The [n]-th triple of bytes, for [n] below [2^24]. *)
Definition bytes3_of_N (n : N) : ascii * ascii * ascii :=
  (ascii_of_N (N.div n 65536%N),
   ascii_of_N (N.modulo (N.div n 256%N) 256%N),
   ascii_of_N (N.modulo n 256%N)).

(** ** The outside world *)

(** A Go result [(value, error)]. *)
Inductive res (A : Type) : Type :=
  | Ok (a : A)
  | Err (msg : string).
Arguments Ok {A} a.
Arguments Err {A} msg.

(** What [os.Stat] returns: file information (here, whether it is a
    directory), an error for which [os.IsNotExist] holds, or another error. *)
Inductive stat_result :=
  | StatOk (isDir : bool)
  | StatNotExist
  | StatError (msg : string).

Definition stat_ok (r : stat_result) : bool :=
  match r with StatOk _ => true | _ => false end.

(** An [exec.Cmd]: program, arguments and working directory. *)
Record Cmd := MkCmd {
  cmd_Name : string;
  cmd_Args : list string;
  cmd_Dir : string
}.

(** A changed file of a pull request, as [fetchPRInfo] reports it. *)
Record changedFile := MkChangedFile {
  cf_path : string;
  cf_additions : Z;
  cf_deletions : Z
}.

(** Values put in a template context ([map[string]interface{}]): strings,
    integers, lists of strings, maps of strings and lists of files. *)
Inductive tval :=
  | TStr (s : string)
  | TInt (z : Z)
  | TStrings (l : list string)
  | TFields (m : list (string * string))
  | TFiles (l : list changedFile).

(** [config.AgentPresetInfo], the part read here. *)
Record NonInteractiveConfig := MkNonInteractive {
  ni_Subcommand : string;
  ni_PromptFlag : string
}.

Record AgentPreset := MkAgentPreset {
  preset_Command : string;
  preset_NonInteractive : option NonInteractiveConfig
}.

(** The collaborators of the formula command: the operating system, the
    standard library and the other packages of the repository, over a state
    [W] of the world. An operation that only reads is a function of the
    world; one that acts on it returns the new world. *)
Class Platform (W : Type) := {
  (* path/filepath *)
  filepath_Join : list string -> string;
  filepath_Base : string -> string;
  (* os *)
  os_Getwd : W -> res string;
  os_Stat : string -> W -> stat_result;
  os_ReadFile : string -> W -> res string;
  os_WriteFile : string -> string -> W -> error * W;
  os_Remove : string -> W -> error * W;
  os_MkdirAll : string -> W -> error * W;
  os_Getenv : string -> W -> string;
  (* os/exec *)
  exec_LookPath : string -> W -> error;
  exec_Run : Cmd -> W -> error * W;
  exec_Output : Cmd -> W -> res string * W;
  (* crypto/rand: the three bytes read *)
  rand_Read3 : W -> (ascii * ascii * ascii) * W;
  (* crypto/sha256 followed by encoding/hex *)
  sha256_hex : string -> string;
  (* text/template: parse and execute *)
  renderTemplate : string -> list (string * tval) -> res string;
  (* the order in which a [range] goes through a map *)
  range_order : W -> list (string * string) -> list (string * string);
  range_order_perm : forall w l, Permutation (range_order w l) l;
  (* the files compiled in the binary ([formulasFS]) *)
  formulasFS : gmap string string;
  (* other packages of the repository *)
  workspace_FindFromCwd : W -> res string;
  findTownRoot : W -> res string;
  beads_NeedsForceForID : string -> bool;
  config_GetAgentPresetByName : string -> option AgentPreset;
  (* [fetchPRInfo]: title and changed files of a pull request, from [gh] *)
  fetchPRInfo : Z -> W -> (string * list changedFile) * W
}.

(** ** The built-in set (package [formula], embed.go) *)

Definition formula_suffix : string := ".formula.toml".

(** The slice [name[len(name)-len(suffix):]] is in range under its guard. *)
Definition formulaNameToFilename (name : string) : string :=
  if (String.length formula_suffix <? String.length name)
     && String.eqb (drop_s (String.length name - String.length formula_suffix) name)
                   formula_suffix
  then name
  else name +++ formula_suffix.

(** ** Resolution *)

Inductive FormulaSource := FormulaSourceFile | FormulaSourceEmbedded.

Record FormulaLocation := MkFormulaLocation {
  loc_Path : string;
  loc_Source : FormulaSource
}.

Definition IsEmbedded (f : FormulaLocation) : bool :=
  match loc_Source f with FormulaSourceEmbedded => true | _ => false end.

Definition extensions : list string := [".formula.toml"; ".formula.json"].

Section Resolver.
Context {W : Type} `{Platform W}.

Definition GetEmbeddedFormula (name : string) : res string :=
  let filename := formulaNameToFilename name in
  match formulasFS !! ("formulas/" +++ filename) with
  | Some content => Ok content
  | None => Err ("embedded formula " +++ name +++ " not found")
  end.

Definition EmbeddedFormulaExists (name : string) : bool :=
  let filename := formulaNameToFilename name in
  match formulasFS !! ("formulas/" +++ filename) with
  | Some _ => true
  | None => false
  end.

Definition GetEmbeddedFormulaHash (name : string) : res string :=
  match GetEmbeddedFormula name with
  | Err e => Err e
  | Ok content => Ok (sha256_hex content)
  end.

(** The directories searched, in order: the project level under the
    working directory, then the user level under the workspace root; a
    directory that cannot be determined is left out. *)
Definition searchPaths (w : W) : list string :=
  let searchPaths := [] in
  let searchPaths :=
    match os_Getwd w with
    | Ok cwd => searchPaths ++ [filepath_Join [cwd; ".beads"; "formulas"]]
    | Err _ => searchPaths
    end in
  match workspace_FindFromCwd w with
  | Ok townRoot => searchPaths ++ [filepath_Join [townRoot; ".beads"; "formulas"]]
  | Err _ => searchPaths
  end.

(** The inner loop of [findFormulaWithSource]: the extensions for one
    directory. *)
Fixpoint findInDir (basePath name : string) (exts : list string) (w : W)
  : option string :=
  match exts with
  | [] => None
  | ext :: rest =>
      let path := filepath_Join [basePath; name +++ ext] in
      if stat_ok (os_Stat path w) then Some path
      else findInDir basePath name rest w
  end.

(** The outer loop: the directories. *)
Fixpoint findInDirs (basePaths : list string) (name : string) (w : W)
  : option string :=
  match basePaths with
  | [] => None
  | basePath :: rest =>
      match findInDir basePath name extensions w with
      | Some path => Some path
      | None => findInDirs rest name w
      end
  end.

Definition findFormulaWithSource (name : string) (w : W) : res FormulaLocation :=
  match findInDirs (searchPaths w) name w with
  | Some path => Ok (MkFormulaLocation path FormulaSourceFile)
  | None =>
      if EmbeddedFormulaExists name
      then Ok (MkFormulaLocation name FormulaSourceEmbedded)
      else Err ("formula '" +++ name +++ "' not found in search paths or embedded")
  end.

Definition findFormulaFile (name : string) (w : W) : res string :=
  match findFormulaWithSource name w with
  | Err e => Err e
  | Ok loc => if IsEmbedded loc then Ok ("embedded:" +++ name) else Ok (loc_Path loc)
  end.

(** The paths tried for a name, in the order of the two loops. *)
Definition candidates (name : string) (w : W) : list string :=
  flat_map
    (fun basePath => map (fun ext => filepath_Join [basePath; name +++ ext]) extensions)
    (searchPaths w).

End Resolver.

(** ** Effects: the world and what was done to it *)

(** What the process did, in order: lines written to standard output,
    commands run, files written or removed, directories made. *)
Inductive event :=
  | EvPrint (s : string)
  | EvRun (c : Cmd) (e : error)
  | EvOutput (c : Cmd) (r : res string)
  | EvWriteFile (path content : string) (e : error)
  | EvRemove (path : string) (e : error)
  | EvMkdirAll (path : string) (e : error).

Section Effects.
Context {W : Type} `{Platform W}.

Record St := MkSt {
  st_world : W;
  st_log : list event
}.

(** A computation on the state; [None] is a panic. *)
Definition M (A : Type) : Type := St -> option (A * St).

Definition retM {A} (a : A) : M A := fun st => Some (a, st).

Definition bindM {A B} (m : M A) (k : A -> M B) : M B :=
  fun st => match m st with
            | Some (a, st') => k a st'
            | None => None
            end.

Definition readM {A} (f : W -> A) : M A :=
  fun st => Some (f (st_world st), st).

Definition liftM {A} (o : option A) : M A :=
  fun st => match o with Some a => Some (a, st) | None => None end.

Definition actM {A} (f : W -> A * W) (ev : A -> list event) : M A :=
  fun st =>
    let '(a, w') := f (st_world st) in
    Some (a, MkSt w' (st_log st ++ ev a)).

Definition printM (s : string) : M unit :=
  fun st => Some (tt, MkSt (st_world st) (st_log st ++ [EvPrint s])).

Definition runM (c : Cmd) : M error :=
  actM (exec_Run c) (fun e => [EvRun c e]).

Definition outputM (c : Cmd) : M (res string) :=
  actM (exec_Output c) (fun r => [EvOutput c r]).

Definition writeFileM (path content : string) : M error :=
  actM (os_WriteFile path content) (fun e => [EvWriteFile path content e]).


Definition mkdirAllM (path : string) : M error :=
  actM (os_MkdirAll path) (fun e => [EvMkdirAll path e]).

Definition rand3M : M (ascii * ascii * ascii) :=
  actM rand_Read3 (fun _ => []).

End Effects.

Arguments St W : clear implicits.
Arguments M W A : clear implicits.

Notation "'do' x <- m ; k" := (bindM m (fun x => k))
  (at level 10, x pattern, m at level 100, k at level 200,
   format "'[v' 'do'  x  <-  m ; '/' k ']'").
Notation "'do_' m ; k" := (bindM m (fun _ => k))
  (at level 10, m at level 100, k at level 200,
   format "'[v' 'do_'  m ; '/' k ']'").

(** ** Overrides *)

Record FormulaOverride := MkFormulaOverride {
  ov_Name : string;
  ov_Path : string;
  ov_Level : string;     (* "town" or "rig" *)
  ov_RigName : string
}.

Section Overrides.
Context {W : Type} `{Platform W}.

(** The loop of [discoverRigDirs] over the lines of the registry. *)
Fixpoint discoverRigDirs_loop (townRoot : string) (lines : list string)
    (inRigs : bool) (braceDepth : Z) (rigDirs : list string) (w : W)
  : list string :=
  match lines with
  | [] => rigDirs
  | line :: rest =>
      let trimmed := strings_TrimSpace line in
      if strings_Contains trimmed (dq +++ "rigs" +++ dq)
      then discoverRigDirs_loop townRoot rest true braceDepth rigDirs w
      else if inRigs then
        let braceDepth :=
          if strings_Contains trimmed "{" then (braceDepth + 1)%Z else braceDepth in
        let '(braceDepth, inRigs) :=
          if strings_Contains trimmed "}"
          then let braceDepth := (braceDepth - 1)%Z in
               (braceDepth, if (braceDepth <=? 0)%Z then false else inRigs)
          else (braceDepth, inRigs) in
        let rigDirs :=
          if (braceDepth =? 1)%Z && strings_Contains trimmed (dq +++ ":")
          then match strings_Split trimmed dq with
               | _ :: rigName :: _ =>
                   if negb (is_empty rigName) && negb (String.eqb rigName "rigs")
                   then let rigPath := filepath_Join [townRoot; rigName] in
                        match os_Stat rigPath w with
                        | StatOk true => rigDirs ++ [rigPath]
                        | _ => rigDirs
                        end
                   else rigDirs
               | _ => rigDirs
               end
          else rigDirs in
        discoverRigDirs_loop townRoot rest inRigs braceDepth rigDirs w
      else discoverRigDirs_loop townRoot rest inRigs braceDepth rigDirs w
  end.

Definition discoverRigDirs (townRoot : string) (w : W) : list string :=
  match os_ReadFile (filepath_Join [townRoot; "mayor"; "rigs.json"]) w with
  | Err _ => []
  | Ok content =>
      discoverRigDirs_loop townRoot (strings_Split content nl) false 0%Z [] w
  end.

Fixpoint scanRigOverrides (rigDirs : list string) (name filename : string)
    (overrides : list FormulaOverride) (w : W) : list FormulaOverride :=
  match rigDirs with
  | [] => overrides
  | rigDir :: rest =>
      let rigPath := filepath_Join [rigDir; ".beads"; "formulas"; filename] in
      scanRigOverrides rest name filename
        (if stat_ok (os_Stat rigPath w)
         then overrides ++ [MkFormulaOverride name rigPath "rig" (filepath_Base rigDir)]
         else overrides)
        w
  end.

Definition scanFormulaOverridesForName (townRoot name : string) (w : W)
  : list FormulaOverride :=
  let filename := name +++ ".formula.toml" in
  let townPath := filepath_Join [townRoot; ".beads"; "formulas"; filename] in
  let overrides :=
    if stat_ok (os_Stat townPath w)
    then [MkFormulaOverride name townPath "town" EmptyString]
    else [] in
  scanRigOverrides (discoverRigDirs townRoot w) name filename overrides w.






End Overrides.

(** ** Update of an override (agent-assisted merge) *)

Definition baseHashPrefix : string := "# Based on embedded version: sha256:".

(** [formula.ExtractBaseHash]: the loop over the lines. *)
Fixpoint ExtractBaseHash_lines (lines : list string) : option string :=
  match lines with
  | [] => Some EmptyString
  | line :: rest =>
      let line := strings_TrimSpace line in
      if strings_HasPrefix line baseHashPrefix
      then (h ← slice_from line (String.length baseHashPrefix);
            Some (strings_TrimSpace h))
      else ExtractBaseHash_lines rest
  end.

Definition ExtractBaseHash (content : string) : option string :=
  ExtractBaseHash_lines (strings_Split content nl).

Definition truncateHash (hash : string) : option string :=
  if 12 <? String.length hash then slice_to hash 12 else Some hash.

Definition buildMergePrompt
    (formulaName baseHash currentHash embeddedContent overrideContent : string)
  : option string :=
  tb ← truncateHash baseHash;
  tc ← truncateHash currentHash;
  Some
    ("You are merging a formula override with an updated embedded version." +++ nl +++ nl
     +++ "TASK: Produce a merged formula that incorporates the upstream changes from the new embedded version while preserving the user's customizations from their override." +++ nl +++ nl
     +++ "FORMULA: " +++ formulaName +++ nl +++ nl
     +++ (if negb (is_empty baseHash)
          then "The override was originally based on embedded version sha256:" +++ tb +++ nl
               +++ "The embedded version has been updated to sha256:" +++ tc +++ nl +++ nl
          else "The override has no recorded base version. Compare it directly against the current embedded version." +++ nl +++ nl)
     +++ "=== CURRENT EMBEDDED VERSION (new upstream) ===" +++ nl
     +++ embeddedContent
     +++ nl +++ "=== END EMBEDDED ===" +++ nl +++ nl
     +++ "=== USER'S OVERRIDE (preserve their customizations) ===" +++ nl
     +++ overrideContent
     +++ nl +++ "=== END OVERRIDE ===" +++ nl +++ nl
     +++ "RULES:" +++ nl
     +++ "1. Preserve all user customizations from the override" +++ nl
     +++ "2. Incorporate new additions/improvements from the embedded version" +++ nl
     +++ "3. If there are conflicts, prefer the user's override version" +++ nl
     +++ "4. Output ONLY the merged TOML content, no explanation or markdown fences" +++ nl
     +++ "5. Do NOT include the '# Based on embedded version' header comments - those are managed automatically" +++ nl).

(** The first loop of [stripFormulaHeader]: the index after the last header
    line at the top of the text. *)
Fixpoint headerEnd (lines : list string) (i startIdx : nat) : nat :=
  match lines with
  | [] => startIdx
  | line :: rest =>
      let trimmed := strings_TrimSpace line in
      if is_empty trimmed then headerEnd rest (S i) startIdx
      else if strings_HasPrefix trimmed "# Formula override created by"
              || strings_HasPrefix trimmed "# Based on embedded version:"
              || strings_HasPrefix trimmed "# To update: gt formula update"
      then headerEnd rest (S i) (S i)
      else startIdx
  end.

(** The second loop: the blank lines after the header are skipped;
    [lines] is [lines[startIdx:]]. *)
Fixpoint skipBlank (lines : list string) (startIdx : nat) : nat :=
  match lines with
  | [] => startIdx
  | line :: rest =>
      if is_empty (strings_TrimSpace line) then skipBlank rest (S startIdx)
      else startIdx
  end.

Definition stripFormulaHeader (content : string) : string :=
  let lines := strings_Split content nl in
  let startIdx := headerEnd lines 0 0 in
  let startIdx := skipBlank (drop startIdx lines) startIdx in
  if length lines <=? startIdx then content
  else strings_Join (drop startIdx lines) nl.

Definition overrideHeader (currentHash formulaName : string) : string :=
  "# Formula override created by gt formula modify" +++ nl
  +++ "# Based on embedded version: sha256:" +++ currentHash +++ nl
  +++ "# To update: gt formula update " +++ formulaName +++ nl +++ nl.

Definition agentCandidates : list string := ["claude"; "opencode"; "gemini"; "codex"].

Section Update.
Context {W : Type} `{Platform W}.

(** The agent: its name, its command and the arguments before the prompt. *)
Definition agent : Type := string * string * list string.

Definition resolveAgentForOneShot (agentName : string) (w : W) : res agent :=
  match config_GetAgentPresetByName agentName with
  | None =>
      match exec_LookPath agentName w with
      | Some _ => Err ("agent '" +++ agentName +++ "' not found on PATH")
      | None => Ok (agentName, agentName, ["-p"])
      end
  | Some preset =>
      let command := preset_Command preset in
      match exec_LookPath command w with
      | Some _ => Err ("agent '" +++ agentName +++ "' command '" +++ command
                       +++ "' not found on PATH")
      | None =>
          let args :=
            match preset_NonInteractive preset with
            | Some ni =>
                (if negb (is_empty (ni_Subcommand ni)) then [ni_Subcommand ni] else [])
                ++ (if negb (is_empty (ni_PromptFlag ni)) then [ni_PromptFlag ni] else [])
            | None => ["-p"]
            end in
          Ok (agentName, command, args)
      end
  end.

(** The second step of [detectFormulaUpdateAgent]: the agent named by
    [default_agent] in the settings of the town, if it resolves. *)
Definition configuredAgent (townRoot : string) (w : W) : option (option agent) :=
  match os_ReadFile (filepath_Join [townRoot; "settings"; "config.json"]) w with
  | Err _ => Some None
  | Ok content =>
      match strings_Index content (dq +++ "default_agent" +++ dq) with
      | None => Some None
      | Some idx =>
          rest ← slice_from content idx;
          match strings_Index rest ":" with
          | None => Some None
          | Some colonIdx =>
              after ← slice_from rest (colonIdx + 1);
              let valPart := strings_TrimSpace after in
              match valPart with
              | String c _ =>
                  if Ascii.eqb c dquote then
                    tail ← slice_from valPart 1;
                    match strings_Index tail dq with
                    | None => Some None
                    | Some endQuote =>
                        agentName ← slice valPart 1 (endQuote + 1);
                        if negb (is_empty agentName)
                        then match resolveAgentForOneShot agentName w with
                             | Ok a => Some (Some a)
                             | Err _ => Some None
                             end
                        else Some None
                    end
                  else Some None
              | EmptyString => Some None
              end
          end
      end
  end.

Fixpoint firstAgentOnPath (candidates : list string) (w : W) : res agent :=
  match candidates with
  | [] => Err ("no AI agent found." +++ nl +++ nl
               +++ "Install one of: claude, opencode, gemini, codex" +++ nl
               +++ "Or set $GT_DEFAULT_AGENT to your preferred agent.")
  | candidate :: rest =>
      match exec_LookPath candidate w with
      | None => resolveAgentForOneShot candidate w
      | Some _ => firstAgentOnPath rest w
      end
  end.

Definition detectFormulaUpdateAgent (townRoot : string) (w : W)
  : option (res agent) :=
  let envAgent := os_Getenv "GT_DEFAULT_AGENT" w in
  if negb (is_empty envAgent) then Some (resolveAgentForOneShot envAgent w)
  else
    configured ← configuredAgent townRoot w;
    match configured with
    | Some a => Some (Ok a)
    | None => Some (firstAgentOnPath agentCandidates w)
    end.

(** The override that is updated: the first one at the project level, or
    else the first one. *)
Definition selectOverride (first : FormulaOverride) (overrides : list FormulaOverride)
  : FormulaOverride :=
  default first (List.find (fun o => String.eqb (ov_Level o) "rig") overrides).

Definition manualMergeHint (formulaName path : string) : string :=
  "  Embedded: gt formula show " +++ formulaName +++ nl +++ "  Override: " +++ path.

(** [runFormulaUpdate] after the comparison of the hashes: the merge.
    The ruled lines printed around the proposed merge are left out. *)
Definition mergeOverride (townRoot formulaName : string) (override : FormulaOverride)
    (overrideContent baseHash currentHash : string) (formulaUpdateApply : bool)
  : M W error :=
  match GetEmbeddedFormula formulaName with
  | Err e => retM (Some ("reading embedded formula: " +++ e))
  | Ok embeddedContent =>
      do tb <- liftM (truncateHash baseHash);
      do tc <- liftM (truncateHash currentHash);
      do_ printM ("Your override: " +++ ov_Path override +++ nl);
      do_ printM (if negb (is_empty baseHash)
                  then "Based on:      sha256:" +++ tb +++ nl
                  else "Based on:      (unknown - no base version recorded)" +++ nl);
      do_ printM ("Current:       sha256:" +++ tc +++ nl +++ nl);
      do detected <- bindM (readM (detectFormulaUpdateAgent townRoot)) liftM;
      match detected with
      | Err e => retM (Some ("detecting agent: " +++ e))
      | Ok (agentName, agentCmd, agentArgs) =>
          do_ printM ("Invoking " +++ agentName +++ " to merge changes..." +++ nl +++ nl);
          do prompt <- liftM (buildMergePrompt formulaName baseHash currentHash
                                embeddedContent overrideContent);
          do out <- outputM (MkCmd agentCmd (agentArgs ++ [prompt]) EmptyString);
          match out with
          | Err e =>
              retM (Some ("agent merge failed: " +++ e +++ nl +++ nl
                          +++ "You can manually merge by comparing:" +++ nl
                          +++ manualMergeHint formulaName (ov_Path override)))
          | Ok mergedOutput =>
              let mergedContent := strings_TrimSpace mergedOutput in
              if is_empty mergedContent
              then retM (Some ("agent returned empty output. Manual merge may be required."
                               +++ nl +++ nl +++ "Compare:" +++ nl
                               +++ manualMergeHint formulaName (ov_Path override)))
              else if formulaUpdateApply then
                let bakPath := ov_Path override +++ ".bak" in
                do e <- writeFileM bakPath overrideContent;
                match e with
                | Some msg => retM (Some ("creating backup: " +++ msg))
                | None =>
                    do_ printM ("Backup created: " +++ bakPath +++ nl);
                    let header := overrideHeader currentHash formulaName in
                    let contentToWrite := stripFormulaHeader mergedContent in
                    let finalContent := header +++ contentToWrite in
                    do e <- writeFileM (ov_Path override) finalContent;
                    match e with
                    | Some msg => retM (Some ("writing merged result: " +++ msg))
                    | None =>
                        do_ printM ("Override updated: " +++ ov_Path override +++ nl);
                        do_ printM (nl +++ "Base version updated to current embedded (sha256:"
                                    +++ tc +++ ")." +++ nl);
                        retM None
                    end
                end
              else
                do_ printM ("PROPOSED MERGE" +++ nl);
                do_ printM (mergedContent +++ nl);
                do_ printM ("Review the proposed merge above." +++ nl);
                do_ printM ("Run 'gt formula update " +++ formulaName
                            +++ " --apply' to apply it." +++ nl);
                retM None
          end
      end
  end.

Definition checkingFor (formulaName : string) : event :=
  EvPrint ("Checking for updates to " +++ formulaName +++ "..." +++ nl +++ nl).

Definition noUpdateNeeded : string :=
  "Override is based on the current embedded version. No update needed." +++ nl.

(** [runFormulaUpdate], with [args[0]] and the flag [--apply]. *)
Definition runFormulaUpdate (formulaName : string) (formulaUpdateApply : bool)
  : M W error :=
  do_ printM ("Checking for updates to " +++ formulaName +++ "..." +++ nl +++ nl);
  if negb (EmbeddedFormulaExists formulaName)
  then retM (Some ("formula '" +++ formulaName +++ "' not found in embedded formulas"))
  else
    do r <- readM findTownRoot;
    match r with
    | Err e => retM (Some ("finding town root: " +++ e))
    | Ok townRoot =>
        do overrides <- readM (scanFormulaOverridesForName townRoot formulaName);
        match overrides with
        | [] =>
            retM (Some ("No override found for '" +++ formulaName
                        +++ "'. Nothing to update." +++ nl +++ nl
                        +++ "Use 'gt formula modify " +++ formulaName
                        +++ "' to create an override first."))
        | first :: _ =>
            let override := selectOverride first overrides in
            do rc <- readM (os_ReadFile (ov_Path override));
            match rc with
            | Err e => retM (Some ("reading override file: " +++ e))
            | Ok overrideContent =>
                do baseHash <- liftM (ExtractBaseHash overrideContent);
                match GetEmbeddedFormulaHash formulaName with
                | Err e => retM (Some ("computing embedded hash: " +++ e))
                | Ok currentHash =>
                    if negb (is_empty baseHash) && String.eqb baseHash currentHash
                    then do_ printM noUpdateNeeded; retM None
                    else mergeOverride townRoot formulaName override overrideContent
                           baseHash currentHash formulaUpdateApply
                end
            end
        end
    end.

End Update.

(** ** Convoy execution *)

(** [%d] of [fmt]. *)
Definition fmt_d (z : Z) : string := NilZero.string_of_int (Z.to_int z).

Definition bd (args : list string) (dir : string) : Cmd := MkCmd "bd" args dir.

(** The description of the convoy record. *)
Definition convoyDescription (formulaName : string) (legs : nat) (targetRig : string)
    (formulaRunPR : Z) : string :=
  "Formula convoy: " +++ formulaName +++ nl +++ nl
  +++ "Legs: " +++ fmt_d (Z.of_nat legs) +++ nl
  +++ "Rig: " +++ targetRig
  +++ (if (0 <? formulaRunPR)%Z then nl +++ "PR: #" +++ fmt_d formulaRunPR
       else EmptyString).

Section Convoy.
Context {W : Type} `{Platform W}.

(** A fresh short identifier, from three bytes of the random source. *)
Definition freshShortID : M W string :=
  do b <- rand3M;
  liftM (generateFormulaShortID b).

Definition renderTemplateOrDefault (tmplText : string) (ctx : list (string * tval))
    (defaultVal : string) : string :=
  if is_empty tmplText then defaultVal
  else match renderTemplate tmplText ctx with
       | Ok result => result
       | Err _ => defaultVal
       end.

(** The arguments of [bd create]. *)
Definition createArgs (type id title description : string) : list string :=
  [ "create"; "--type=" +++ type; "--id=" +++ id; "--title=" +++ title;
    "--description=" +++ description ]
  ++ (if beads_NeedsForceForID id then ["--force"] else []).

(** The description of a leg record: the description of the leg, followed
    by the rendered base prompt when the formula has one. *)
Definition legDescription (f : formulaData) (formulaName targetDescription reviewID : string)
    (formulaRunPR : Z) (prTitle : string) (changedFiles : list changedFile)
    (outputDir : string) (leg : formulaLeg) : string :=
  match f_Prompts f !! "base" with
  | None => leg_Description leg
  | Some basePrompt =>
      let legCtx :=
        [ ("formula_name", TStr formulaName);
          ("target_description", TStr targetDescription);
          ("review_id", TStr reviewID);
          ("pr_number", TInt formulaRunPR);
          ("pr_title", TStr prTitle);
          ("leg", TFields [ ("id", leg_ID leg); ("title", leg_Title leg);
                            ("focus", leg_Focus leg);
                            ("description", leg_Description leg) ]);
          ("changed_files", TFiles changedFiles);
          ("files", TStrings []) ] in
      let legCtx :=
        match f_Output f with
        | None => legCtx
        | Some output =>
            let legPattern :=
              renderTemplateOrDefault (out_LegPattern output) legCtx
                (leg_ID leg +++ "-findings.md") in
            let outputPath := filepath_Join [outputDir; legPattern] in
            legCtx ++ [ ("output_path", TStr outputPath);
                        ("output", TFields [ ("directory", outputDir);
                                             ("synthesis", out_Synthesis output) ]) ]
        end in
      let renderedPrompt :=
        match renderTemplate basePrompt legCtx with
        | Ok rendered => rendered
        | Err _ => basePrompt
        end in
      leg_Description leg +++ nl +++ nl +++ "---" +++ nl +++ "Base Prompt:" +++ nl
      +++ renderedPrompt
  end.

(** Step 2: one record per leg, tracked by the convoy; [legBeads] maps the
    id of a leg to the id of its record. *)
Fixpoint createLegs (legs : list formulaLeg) (describe : formulaLeg -> string)
    (convoyID townBeads : string) (legBeads : gmap string string)
  : M W (gmap string string) :=
  match legs with
  | [] => retM legBeads
  | leg :: rest =>
      do id <- freshShortID;
      let legBeadID := "hq-leg-" +++ id in
      do e <- runM (bd (createArgs "task" legBeadID (leg_Title leg) (describe leg)) townBeads);
      match e with
      | Some _ => createLegs rest describe convoyID townBeads legBeads
      | None =>
          do_ runM (bd ["dep"; "add"; convoyID; legBeadID; "--type=tracks"] townBeads);
          createLegs rest describe convoyID townBeads (<[leg_ID leg := legBeadID]> legBeads)
      end
  end.

(** The loop that makes the synthesis depend on the records of the legs. *)
Fixpoint addDependencies (synthesisBeadID townBeads : string)
    (legBeads : list (string * string)) : M W unit :=
  match legBeads with
  | [] => retM tt
  | (_, legBeadID) :: rest =>
      do_ runM (bd ["dep"; "add"; synthesisBeadID; legBeadID] townBeads);
      addDependencies synthesisBeadID townBeads rest
  end.

(** Step 3: the record of the synthesis; the result is [synthesisBeadID]. *)
Definition createSynthesis (f : formulaData) (convoyID townBeads : string)
    (legBeads : gmap string string) : M W string :=
  match f_Synthesis f with
  | None => retM EmptyString
  | Some synthesis =>
      do id <- freshShortID;
      let synthesisBeadID := "hq-syn-" +++ id in
      let synDesc :=
        if is_empty (syn_Description synthesis)
        then "Synthesize findings from all legs into unified output"
        else syn_Description synthesis in
      do e <- runM (bd (createArgs "task" synthesisBeadID (syn_Title synthesis) synDesc)
                       townBeads);
      match e with
      | Some _ => retM synthesisBeadID
      | None =>
          do_ runM (bd ["dep"; "add"; convoyID; synthesisBeadID; "--type=tracks"] townBeads);
          do order <- readM (fun w => range_order w (map_to_list legBeads));
          do_ addDependencies synthesisBeadID townBeads order;
          retM synthesisBeadID
      end
  end.

(** Step 4: each leg that has a record is given to a worker; the result
    is [slingCount]. *)
Fixpoint slingLegs (legs : list formulaLeg) (targetRig townBeads : string)
    (legBeads : gmap string string) (slingCount : nat) : M W nat :=
  match legs with
  | [] => retM slingCount
  | leg :: rest =>
      match legBeads !! leg_ID leg with
      | None => slingLegs rest targetRig townBeads legBeads slingCount
      | Some legBeadID =>
          do e <- runM (MkCmd "gt"
                          [ "sling"; legBeadID; targetRig;
                            "-a"; leg_Description leg; "-s"; leg_Title leg ]
                          EmptyString);
          match e with
          | Some err =>
              do_ runM (bd ["comment"; legBeadID; "Failed to sling: " +++ err] townBeads);
              slingLegs rest targetRig townBeads legBeads slingCount
          | None => slingLegs rest targetRig townBeads legBeads (S slingCount)
          end
      end
  end.

(** [executeConvoyFormula], with the flag [--pr]. Of what it writes to
    standard output only the final summary is kept; the progress lines
    and the warnings are left out. *)
Definition executeConvoyFormula (f : formulaData) (formulaName targetRig : string)
    (formulaRunPR : Z) : M W error :=
  do r <- readM workspace_FindFromCwd;
  match r with
  | Err e => retM (Some ("finding town root: " +++ e))
  | Ok townRoot =>
      let townBeads := filepath_Join [townRoot; ".beads"] in
      (* Step 1: the convoy record *)
      do id <- freshShortID;
      let convoyID := "hq-cv-" +++ id in
      do convoyTitle <- liftM (convoyTitle formulaName (f_Description f));
      let description :=
        convoyDescription formulaName (length (f_Legs f)) targetRig formulaRunPR in
      do e <- runM (bd (createArgs "convoy" convoyID convoyTitle description) townBeads);
      match e with
      | Some err => retM (Some ("creating convoy bead: " +++ err))
      | None =>
          do reviewID <- freshShortID;
          let targetDescription :=
            if (0 <? formulaRunPR)%Z then "PR #" +++ fmt_d formulaRunPR
            else "local files" in
          do pr <- (if (0 <? formulaRunPR)%Z
                    then actM (fetchPRInfo formulaRunPR) (fun _ => [])
                    else retM (EmptyString, []));
          let '(prTitle, changedFiles) := pr in
          do outputDir <-
            match f_Output f with
            | Some output =>
                if negb (is_empty (out_Directory output)) then
                  let dirCtx := [ ("review_id", TStr reviewID);
                                  ("formula_name", TStr formulaName) ] in
                  let outputDir :=
                    renderTemplateOrDefault (out_Directory output) dirCtx
                      (".reviews/" +++ reviewID) in
                  do_ mkdirAllM outputDir;
                  retM outputDir
                else retM EmptyString
            | None => retM EmptyString
            end;
          (* Step 2: the leg records *)
          do legBeads <-
            createLegs (f_Legs f)
              (legDescription f formulaName targetDescription reviewID formulaRunPR
                 prTitle changedFiles outputDir)
              convoyID townBeads ∅;
          (* Step 3: the synthesis record *)
          do synthesisBeadID <- createSynthesis f convoyID townBeads legBeads;
          (* Step 4: dispatch *)
          do slingCount <- slingLegs (f_Legs f) targetRig townBeads legBeads 0;
          (* Summary *)
          do_ printM ("  Convoy:  " +++ convoyID +++ nl);
          do_ printM ("  Legs:    " +++ fmt_d (Z.of_nat slingCount) +++ " dispatched" +++ nl);
          do_ (if negb (is_empty synthesisBeadID)
               then printM ("  Synthesis: " +++ synthesisBeadID
                            +++ " (blocked until legs complete)" +++ nl)
               else retM tt);
          do_ printM (nl +++ "  Track progress: gt convoy status " +++ convoyID +++ nl);
          retM None
      end
  end.

End Convoy.

(** ** Reading the log of a run *)

(** The id of the record made by a successful [bd create --type=task] whose
    id is that of a leg record. *)
Definition createdLegRecord (ev : event) : option string :=
  match ev with
  | EvRun (MkCmd "bd" ("create" :: "--type=task" :: idArg :: _) _) None =>
      if strings_HasPrefix idArg "--id=hq-leg-" then Some (drop_s 5 idArg) else None
  | _ => None
  end.

(** The edge added by [bd dep add a b] (a plain dependency: no relation
    type is given). *)
Definition dependencyEdge (ev : event) : option (string * string) :=
  match ev with
  | EvRun (MkCmd "bd" ["dep"; "add"; a; b] _) _ => Some (a, b)
  | _ => None
  end.

Definition createdLegRecords (log : list event) : list string :=
  omap createdLegRecord log.

Definition dependencyEdges (log : list event) : list (string * string) :=
  omap dependencyEdge log.

(** ** A simulated platform

    A small world on which the operations can be run: files and directories
    in memory, a counter as random source, commands that succeed unless one
    of their arguments is listed as failing. *)

Record SimWorld := MkSimWorld {
  sim_files : gmap string string;
  sim_dirs : list string;
  sim_cwd : res string;
  sim_root : res string;
  sim_rand : N;
  sim_failing : list string
}.

(** A stand-in for the digest: the decimal sum of the bytes. *)
Fixpoint byte_sum (s : string) : N :=
  match s with
  | EmptyString => 0%N
  | String c r => (N_of_ascii c + byte_sum r)%N
  end.

Definition sim_digest (s : string) : string := fmt_d (Z.of_N (byte_sum s)).

Definition sim_Stat (path : string) (w : SimWorld) : stat_result :=
  match sim_files w !! path with
  | Some _ => StatOk false
  | None => if existsb (String.eqb path) (sim_dirs w) then StatOk true else StatNotExist
  end.

Definition sim_set_files (files : gmap string string) (w : SimWorld) : SimWorld :=
  MkSimWorld files (sim_dirs w) (sim_cwd w) (sim_root w) (sim_rand w) (sim_failing w).

Definition sim_Remove (path : string) (w : SimWorld) : error * SimWorld :=
  match sim_files w !! path with
  | Some _ => (None, sim_set_files (delete path (sim_files w)) w)
  | None => (Some "no such file or directory", w)
  end.

Definition sim_Run (c : Cmd) (w : SimWorld) : error * SimWorld :=
  (if existsb (fun a => existsb (String.eqb a) (sim_failing w)) (cmd_Args c)
   then Some "exit status 1" else None, w).

Definition builtin_review : string :=
  text [ "formula = 'review'"; "type = 'convoy'"; EmptyString ].

#[export] Instance simPlatform : Platform SimWorld := {|
  filepath_Join := fun elems => strings_Join elems "/";
  filepath_Base := fun path => List.last (strings_Split path "/") EmptyString;
  os_Getwd := sim_cwd;
  os_Stat := sim_Stat;
  os_ReadFile := fun path w =>
    match sim_files w !! path with
    | Some content => Ok content
    | None => Err "no such file or directory"
    end;
  os_WriteFile := fun path content w =>
    (None, sim_set_files (<[path := content]> (sim_files w)) w);
  os_Remove := sim_Remove;
  os_MkdirAll := fun path w =>
    (None, MkSimWorld (sim_files w) (path :: sim_dirs w) (sim_cwd w) (sim_root w)
             (sim_rand w) (sim_failing w));
  os_Getenv := fun _ _ => EmptyString;
  exec_LookPath := fun name _ =>
    if String.eqb name "claude" then None else Some "executable file not found";
  exec_Run := sim_Run;
  exec_Output := fun _ w => (Ok ("merged = true" +++ nl), w);
  rand_Read3 := fun w =>
    (bytes3_of_N (sim_rand w),
     MkSimWorld (sim_files w) (sim_dirs w) (sim_cwd w) (sim_root w)
       (N.succ (sim_rand w)) (sim_failing w));
  sha256_hex := sim_digest;
  renderTemplate := fun tmplText _ => Ok tmplText;
  range_order := fun _ l => l;
  range_order_perm := fun _ l => Permutation_refl l;
  formulasFS := {[ "formulas/review.formula.toml" := builtin_review ]};
  workspace_FindFromCwd := sim_root;
  findTownRoot := sim_root;
  beads_NeedsForceForID := fun _ => false;
  config_GetAgentPresetByName := fun _ => None;
  fetchPRInfo := fun _ w => ((EmptyString, []), w)
|}.

Definition sim_start (w : SimWorld) : St SimWorld := MkSt w [].

(** A town at [/town] with one registered project, [/town/alpha]. *)
Definition rigs_json : string :=
  text [ "{";
         "  " +++ dq +++ "rigs" +++ dq +++ ": {";
         "    " +++ dq +++ "alpha" +++ dq +++ ": {";
         "      " +++ dq +++ "added" +++ dq +++ ": 1";
         "    }";
         "  }";
         "}" ].

Definition override_of (baseHash body : string) : string :=
  overrideHeader baseHash "review" +++ body.

Definition town_world (files : list (string * string)) : SimWorld :=
  MkSimWorld
    (list_to_map (("/town/mayor/rigs.json", rigs_json) :: files))
    ["/town"; "/town/alpha"]
    (Ok "/town/alpha") (Ok "/town") 0%N [].

(** The town with an override of [review] at both levels; the one of the
    project is based on an older built-in. *)
Definition both_overrides : SimWorld :=
  town_world
    [ ("/town/.beads/formulas/review.formula.toml",
       override_of (sim_digest builtin_review) "x = 1");
      ("/town/alpha/.beads/formulas/review.formula.toml",
       override_of "123" "x = 2") ].

(** The town with an override at the user level only, based on the current
    built-in. *)
Definition current_override : SimWorld :=
  town_world
    [ ("/town/.beads/formulas/review.formula.toml",
       override_of (sim_digest builtin_review) "x = 1") ].

(** The id of the record made by a successful [bd create --type=task]
    whose id is that of a synthesis record. *)
Definition createdSynthesisRecord (ev : event) : option string :=
  match ev with
  | EvRun (MkCmd "bd" ("create" :: "--type=task" :: idArg :: _) _) None =>
      if strings_HasPrefix idArg "--id=hq-syn-" then Some (drop_s 5 idArg) else None
  | _ => None
  end.

Definition createdSynthesisRecords (log : list event) : list string :=
  omap createdSynthesisRecord log.

(** A run from [st] that does not panic, appends [evs] to the log and ends
    with a result, events and world that satisfy [P]. *)
Definition runs {W A} (m : M W A) (st : St W) (P : A -> list event -> W -> Prop) : Prop :=
  exists a st',
    m st = Some (a, st') /\
    exists evs, st_log st' = st_log st ++ evs /\ P a evs (st_world st').

(** Formulas and worlds on which the convoy is run. *)
Definition leg (id title : string) : formulaLeg :=
  FormulaLeg id title EmptyString EmptyString.

Definition convoy_of (legs : list formulaLeg) (dependsOn : list string) : formulaData :=
  FormulaData "review" "Review the change" "convoy" legs
    (Some (FormulaSynthesis "Summary" EmptyString dependsOn)) ∅ None.

(** Two leg blocks with the same id: the text, and the document that the
    parser makes of it. *)
Definition twin_legs_text : string :=
  text [ "formula = " +++ dq +++ "review" +++ dq;
         "type = " +++ dq +++ "convoy" +++ dq;
         "description = " +++ dq +++ "Review the change" +++ dq;
         "[[legs]]";
         "id = " +++ dq +++ "sec" +++ dq;
         "title = " +++ dq +++ "Security" +++ dq;
         "[[legs]]";
         "id = " +++ dq +++ "sec" +++ dq;
         "title = " +++ dq +++ "Secrets" +++ dq;
         "[synthesis]";
         "title = " +++ dq +++ "Summary" +++ dq;
         "depends_on = [" +++ dq +++ "sec" +++ dq +++ "]" ].

Definition twin_legs : formulaData :=
  convoy_of [leg "sec" "Security"; leg "sec" "Secrets"] ["sec"].

(** Three legs; the synthesis names only the first. *)
Definition three_legs : formulaData :=
  convoy_of [leg "sec" "Security"; leg "perf" "Performance"; leg "doc" "Documentation"]
    ["sec"].

(** The town where creating the record titled [Performance] fails. *)
Definition flaky_store : SimWorld :=
  MkSimWorld (list_to_map [("/town/mayor/rigs.json", rigs_json)])
    ["/town"; "/town/alpha"] (Ok "/town/alpha") (Ok "/town") 0%N
    ["--title=Performance"].

(** Events that neither create a leg or synthesis record nor add a
    dependency edge. *)
Definition quiet (evs : list event) : Prop :=
  dependencyEdges evs = [] /\ createdLegRecords evs = [] /\
  createdSynthesisRecords evs = [].


(** A convoy whose composed title has more than eighty characters. *)
Definition long_convoy : formulaData :=
  FormulaData "code-review"
    "Comprehensive code review with parallel specialised reviewers and a final summary"
    "convoy" [leg "sec" "Security"] None ∅ None.

Definition town_override : FormulaOverride :=
  MkFormulaOverride "review" "/town/.beads/formulas/review.formula.toml" "town"
    EmptyString.

Definition alpha_override : FormulaOverride :=
  MkFormulaOverride "review" "/town/alpha/.beads/formulas/review.formula.toml" "rig"
    "alpha".

(** * Properties *)

(** ** Facts about slices and searches *)

Lemma length_take_s n s : n <= String.length s -> String.length (take_s n s) = n.
Proof.
  revert s; induction n as [|n IH]; intros [|c s]; simpl; intros H; try lia.
  rewrite IH; lia.
Qed.

Lemma length_drop_s n s : String.length (drop_s n s) = String.length s - n.
Proof.
  revert s; induction n as [|n IH]; intros [|c s]; simpl; auto.
Qed.

Lemma slice_Some s lo hi :
  lo <= hi -> hi <= String.length s ->
  slice s lo hi = Some (take_s (hi - lo) (drop_s lo s)).
Proof.
  intros H1 H2. unfold slice.
  destruct (Nat.leb_spec lo hi); [|lia].
  destruct (Nat.leb_spec hi (String.length s)); [|lia].
  reflexivity.
Qed.


Lemma slice_ok s lo hi :
  lo <= hi -> hi <= String.length s ->
  exists r, slice s lo hi = Some r /\ String.length r = hi - lo.
Proof.
  intros H1 H2. eexists. split; [now apply slice_Some|].
  apply length_take_s. rewrite length_drop_s. lia.
Qed.

Lemma HasPrefix_length s p :
  strings_HasPrefix s p = true -> String.length p <= String.length s.
Proof.
  revert s; induction p as [|a p IH]; intros [|b s]; simpl; try lia; try discriminate.
  destruct (Ascii.eqb a b); [|discriminate]. intros H. apply IH in H. lia.
Qed.

Lemma Index_cons c s sub :
  strings_Index (String c s) sub =
  if strings_HasPrefix (String c s) sub then Some 0 else S <$> strings_Index s sub.
Proof. reflexivity. Qed.

Lemma Index_bound s sub i :
  strings_Index s sub = Some i -> i + String.length sub <= String.length s.
Proof.
  revert i; induction s as [|c s IH]; intros i.
  - destruct sub; simpl; [|discriminate]. intros [= <-]. simpl. lia.
  - rewrite Index_cons.
    destruct (strings_HasPrefix (String c s) sub) eqn:E.
    + intros [= <-]. apply HasPrefix_length in E. simpl in *. lia.
    + destruct (strings_Index s sub) as [j|]; cbn; [|discriminate].
      intros [= <-]. specialize (IH j eq_refl). lia.
Qed.

Lemma genSplit_no_sep s sep n :
  strings_Index s sep = None -> genSplit s sep (S n) = [s].
Proof. intros H. destruct n; simpl; [reflexivity|]. now rewrite H. Qed.

Lemma Split_no_sep s sep : strings_Index s sep = None -> strings_Split s sep = [s].
Proof.
  intros H. unfold strings_Split. rewrite Nat.add_1_r. now apply genSplit_no_sep.
Qed.

Lemma is_empty_true s : is_empty s = true <-> s = EmptyString.
Proof. destruct s; simpl; split; congruence. Qed.

Lemma is_empty_false s : is_empty s = false <-> s <> EmptyString.
Proof. destruct s; simpl; split; congruence. Qed.

(** ** The extractor never panics *)

Lemma unquote_total val : is_Some (unquote val).
Proof.
  unfold unquote.
  destruct (Nat.leb_spec 2 (String.length val)) as [H|H]; [|eauto].
  destruct val as [|c val]; simpl in *; [lia|].
  destruct (Ascii.eqb c dquote || Ascii.eqb c squote); [|eauto].
  rewrite slice_Some; simpl; eauto; lia.
Qed.

Lemma extractTOMLValue_lines_total lines key :
  is_Some (extractTOMLValue_lines lines key).
Proof.
  induction lines as [|line rest IH]; cbn [extractTOMLValue_lines]; [eauto|].
  destruct (orb _ _); [|exact IH].
  destruct (strings_SplitN _ _ _) as [|p0 [|p1 [|p2 ps]]]; auto using unquote_total.
Qed.

Lemma extractTOMLValue_total content key : is_Some (extractTOMLValue content key).
Proof. apply extractTOMLValue_lines_total. Qed.

Lemma extractTOMLMultiline_total content key :
  is_Some (extractTOMLMultiline content key).
Proof.
  unfold extractTOMLMultiline, slice_from. cbv zeta.
  destruct (strings_Index content _) as [idx|] eqn:E;
    [|apply extractTOMLValue_total].
  apply Index_bound in E.
  destruct (slice_ok content (idx + String.length (key +++ " = " +++ triple_quote))
              (String.length content)) as (rest & -> & Hrest); [lia|lia|].
  cbn [mbind option_bind].
  destruct (strings_Index rest triple_quote) as [e|] eqn:E2; [|eauto].
  apply Index_bound in E2.
  destruct (slice_ok content (idx + String.length (key +++ " = " +++ triple_quote))
              (idx + String.length (key +++ " = " +++ triple_quote) + e))
    as (body & -> & _); [lia|lia|].
  cbn [mbind option_bind]. eauto.
Qed.

Lemma legOfSection_total section : is_Some (legOfSection section).
Proof.
  unfold legOfSection, slice_to. cbv zeta.
  assert (H : default (String.length section) (strings_Index section "[[")
              <= String.length section).
  { destruct (strings_Index section "[[") eqn:E; simpl; [|lia].
    apply Index_bound in E. lia. }
  destruct (slice_ok section 0 _ (Nat.le_0_l _) H) as (sec & -> & _).
  cbn [mbind option_bind].
  destruct (extractTOMLValue_total sec "id") as [x ->].
  destruct (extractTOMLValue_total sec "title") as [y ->].
  destruct (extractTOMLValue_total sec "focus") as [z ->].
  destruct (extractTOMLMultiline_total sec "description") as [w ->].
  cbn [mbind option_bind]. eauto.
Qed.

Lemma extractLegs_loop_filter sections acc :
  extractLegs_loop sections acc =
  (fun blocks => acc ++ filter (fun l => leg_ID l <> EmptyString) blocks)
    <$> mapM legOfSection sections.
Proof.
  revert acc; induction sections as [|section rest IH]; intros acc.
  - cbn. now rewrite app_nil_r.
  - cbn [extractLegs_loop mapM].
    destruct (legOfSection_total section) as [leg ->].
    cbn [mbind option_bind]. rewrite IH.
    destruct (mapM legOfSection rest) as [blocks|]; cbn; [|reflexivity].
    f_equal.
    destruct (is_empty (leg_ID leg)) eqn:E.
    + apply is_empty_true in E. now rewrite decide_False by congruence.
    + apply is_empty_false in E. rewrite decide_True by assumption.
      now rewrite <- app_assoc.
Qed.

Lemma mapM_legOfSection_total sections : is_Some (mapM legOfSection sections).
Proof.
  apply mapM_is_Some, Forall_forall. intros; apply legOfSection_total.
Qed.

Lemma extractLegs_legBlocks content :
  extractLegs content =
  filter (fun l => leg_ID l <> EmptyString) <$> legBlocks content.
Proof.
  unfold extractLegs, legBlocks.
  destruct (strings_Split content "[[legs]]") as [|s0 sections]; [reflexivity|].
  cbn [tail]. rewrite extractLegs_loop_filter.
  now destruct (mapM legOfSection sections).
Qed.

Lemma extractLegs_total content : is_Some (extractLegs content).
Proof.
  rewrite extractLegs_legBlocks. unfold legBlocks.
  destruct (mapM_legOfSection_total (tail (strings_Split content "[[legs]]")))
    as [blocks ->].
  cbn. eauto.
Qed.

Lemma sectionOf_total content header :
  1 <= String.length header -> is_Some (sectionOf content header).
Proof.
  intros Hh. unfold sectionOf, slice_from, slice_to.
  destruct (strings_Index content header) as [idx|] eqn:E; [|eauto].
  apply Index_bound in E.
  destruct (slice_ok content idx (String.length content)) as (sec & -> & Hsec);
    [lia|lia|].
  cbn [mbind option_bind].
  destruct (slice_ok sec 1 (String.length sec)) as (tl & -> & Htl); [lia|lia|].
  cbn [mbind option_bind].
  destruct (strings_Index tl _) as [endIdx|] eqn:E2; [|eauto].
  apply Index_bound in E2.
  destruct (slice_ok sec 0 (endIdx + 1)) as (r & -> & _); [lia|lia|].
  cbn. eauto.
Qed.

Lemma sectionOf_missing content header :
  strings_Index content header = None -> sectionOf content header = Some None.
Proof. intros H. unfold sectionOf. now rewrite H. Qed.

Lemma extractSynthesis_total content : is_Some (extractSynthesis content).
Proof.
  unfold extractSynthesis.
  destruct (sectionOf_total content "[synthesis]") as [[section|] ->];
    [simpl; lia| |cbn; eauto].
  cbn [mbind option_bind].
  destruct (extractTOMLValue_total section "title") as [t ->].
  destruct (extractTOMLMultiline_total section "description") as [d ->].
  destruct (extractTOMLValue_total section "depends_on") as [l ->].
  cbn [mbind option_bind]. destruct (andb _ _); eauto.
Qed.

Lemma extractPrompts_total content : is_Some (extractPrompts content).
Proof.
  unfold extractPrompts.
  destruct (sectionOf_total content "[prompts]") as [[section|] ->];
    [simpl; lia| |cbn; eauto].
  cbn [mbind option_bind].
  destruct (extractTOMLMultiline_total section "base") as [b ->].
  cbn [mbind option_bind]. eauto.
Qed.

Lemma extractOutput_total content : is_Some (extractOutput content).
Proof.
  unfold extractOutput.
  destruct (sectionOf_total content "[output]") as [[section|] ->];
    [simpl; lia| |cbn; eauto].
  cbn [mbind option_bind].
  destruct (extractTOMLValue_total section "directory") as [a ->].
  destruct (extractTOMLValue_total section "leg_pattern") as [b ->].
  destruct (extractTOMLValue_total section "synthesis") as [c ->].
  cbn [mbind option_bind]. destruct (andb _ _); eauto.
Qed.

Lemma extractTOMLValue_lines_absent lines key :
  forallb
    (fun line =>
       negb (strings_HasPrefix (strings_TrimSpace line) (key +++ " =")
             || strings_HasPrefix (strings_TrimSpace line) (key +++ "=")))
    lines = true ->
  extractTOMLValue_lines lines key = Some EmptyString.
Proof.
  induction lines as [|line rest IH]; cbn [forallb extractTOMLValue_lines];
    [reflexivity|].
  intros H. apply andb_prop in H as [H1 H2].
  apply negb_true_iff in H1. rewrite H1. auto.
Qed.

Lemma extractTOMLValue_absent content key :
  key_absent content key = true -> extractTOMLValue content key = Some EmptyString.
Proof. apply extractTOMLValue_lines_absent. Qed.

Lemma parseFormulaContent_fields data :
  exists name description type legs synthesis prompts output,
    extractTOMLValue data "formula" = Some name /\
    extractTOMLMultiline data "description" = Some description /\
    extractTOMLValue data "type" = Some type /\
    extractLegs data = Some legs /\
    extractSynthesis data = Some synthesis /\
    extractPrompts data = Some prompts /\
    extractOutput data = Some output /\
    parseFormulaContent data =
      Some (FormulaData name description type legs synthesis prompts output, None).
Proof.
  unfold parseFormulaContent.
  destruct (extractTOMLValue_total data "formula") as [name Hn].
  destruct (extractTOMLMultiline_total data "description") as [description Hd].
  destruct (extractTOMLValue_total data "type") as [type Ht].
  destruct (extractLegs_total data) as [legs Hl].
  destruct (extractSynthesis_total data) as [synthesis Hs].
  destruct (extractPrompts_total data) as [prompts Hp].
  destruct (extractOutput_total data) as [output Ho].
  exists name, description, type, legs, synthesis, prompts, output.
  rewrite Hn, Hd, Ht, Hl, Hs, Hp, Ho. cbn. repeat split; reflexivity.
Qed.

(** ** The document parser *)

(** C3. Whatever the bytes it is given, [parseFormulaContent] returns a
    document and a nil error (it neither panics nor reports an error), and a
    field whose key, block marker or section header does not occur in the
    text keeps its zero value: the empty string, no leg, no synthesis, no
    prompt, no output policy. *)
Theorem parseFormulaContent_never_fails (data : string) :
  exists f,
    parseFormulaContent data = Some (f, None) /\
    (key_absent data "formula" = true -> f_Name f = EmptyString) /\
    (strings_Index data ("description = " +++ triple_quote) = None ->
     key_absent data "description" = true -> f_Description f = EmptyString) /\
    (key_absent data "type" = true -> f_Type f = EmptyString) /\
    (strings_Index data "[[legs]]" = None -> f_Legs f = []) /\
    (strings_Index data "[synthesis]" = None -> f_Synthesis f = None) /\
    (strings_Index data "[prompts]" = None -> f_Prompts f = ∅) /\
    (strings_Index data "[output]" = None -> f_Output f = None).
Proof.
  destruct (parseFormulaContent_fields data)
    as (name & description & type & legs & synthesis & prompts & output
        & Hn & Hd & Ht & Hl & Hs & Hp & Ho & Hparse).
  eexists. split; [exact Hparse|]. cbn [f_Name f_Description f_Type f_Legs
    f_Synthesis f_Prompts f_Output].
  repeat split.
  - intros H. apply extractTOMLValue_absent in H. congruence.
  - intros Hi H. apply extractTOMLValue_absent in H.
    unfold extractTOMLMultiline in Hd. cbv zeta in Hd.
    change ("description" +++ " = " +++ triple_quote)
      with ("description = " +++ triple_quote) in Hd.
    rewrite Hi in Hd. congruence.
  - intros H. apply extractTOMLValue_absent in H. congruence.
  - intros H. unfold extractLegs in Hl. rewrite (Split_no_sep _ _ H) in Hl.
    cbn in Hl. congruence.
  - intros H. unfold extractSynthesis in Hs.
    rewrite (sectionOf_missing _ _ H) in Hs. cbn in Hs. congruence.
  - intros H. unfold extractPrompts in Hp.
    rewrite (sectionOf_missing _ _ H) in Hp. cbn in Hp. congruence.
  - intros H. unfold extractOutput in Ho.
    rewrite (sectionOf_missing _ _ H) in Ho. cbn in Ho. congruence.
Qed.

Lemma parseFormulaContent_never_fails_witness :
  exists f,
    parseFormulaContent malformed_input = Some (f, None) /\
    f = FormulaData EmptyString EmptyString EmptyString [] None ∅ None.
Proof.
  destruct (parseFormulaContent_never_fails malformed_input)
    as (f & Hparse & Hn & Hd & Ht & Hl & Hs & Hp & Ho).
  exists f. split; [exact Hparse|].
  destruct f; cbn in *.
  rewrite Hn, Hd, Ht, Hl, Hs, Hp, Ho by (vm_compute; reflexivity).
  reflexivity.
Defined.

(** C4. A leg block whose [id] is empty never reaches the parsed legs,
    whatever its other fields hold: the legs returned by [extractLegs] (and
    stored in the document) are the blocks of the text, in order, without
    those whose [id] is empty; so every parsed leg has a non-empty [id]. *)
Theorem extractLegs_drops_blocks_without_id (content : string) :
  exists blocks legs f,
    legBlocks content = Some blocks /\
    extractLegs content = Some legs /\
    legs = filter (fun l => leg_ID l <> EmptyString) blocks /\
    Forall (fun l => leg_ID l <> EmptyString) legs /\
    (forall b, leg_ID b = EmptyString -> ~ In b legs) /\
    parseFormulaContent content = Some (f, None) /\ f_Legs f = legs.
Proof.
  destruct (parseFormulaContent_fields content)
    as (name & description & type & legs & synthesis & prompts & output
        & _ & _ & _ & Hl & _ & _ & _ & Hparse).
  pose proof Hl as Hl'. rewrite extractLegs_legBlocks in Hl'.
  destruct (legBlocks content) as [blocks|] eqn:Hb; [|discriminate].
  cbn in Hl'. injection Hl' as Hl'.
  assert (HF : Forall (fun l => leg_ID l <> EmptyString) legs).
  { subst legs. apply Forall_forall. intros l Hin.
    apply list_elem_of_filter in Hin. tauto. }
  exists blocks, legs. eexists. repeat split; eauto.
  intros b Hb0 Hin. rewrite Forall_forall in HF.
  apply list_elem_of_In in Hin. exact (HF b Hin Hb0).
Qed.

(** C10. A synthesis section whose title and description are both empty
    yields no synthesis at all, also when it lists dependencies: the ids of
    its [depends_on] are dropped with it and the parsed document has no
    synthesis. *)
Theorem extractSynthesis_nil_discards_depends_on (content section : string) :
  sectionOf content "[synthesis]" = Some (Some section) ->
  extractTOMLValue section "title" = Some EmptyString ->
  extractTOMLMultiline section "description" = Some EmptyString ->
  extractSynthesis content = Some None /\
  exists f, parseFormulaContent content = Some (f, None) /\ f_Synthesis f = None.
Proof.
  intros Hsec Ht Hd.
  assert (Hs : extractSynthesis content = Some None).
  { unfold extractSynthesis. rewrite Hsec. cbn [mbind option_bind].
    rewrite Ht, Hd. cbn [mbind option_bind].
    destruct (extractTOMLValue_total section "depends_on") as [l ->].
    reflexivity. }
  split; [exact Hs|].
  destruct (parseFormulaContent_fields content)
    as (name & description & type & legs & synthesis & prompts & output
        & _ & _ & _ & _ & Hs' & _ & _ & Hparse).
  eexists. split; [exact Hparse|]. cbn. congruence.
Qed.

Lemma extractSynthesis_nil_discards_depends_on_witness :
  (parseDependsOn <$> extractTOMLValue synthesis_only_deps_section "depends_on")
    = Some ["sec"; "perf"] /\
  extractSynthesis synthesis_only_deps = Some None /\
  exists f, parseFormulaContent synthesis_only_deps = Some (f, None)
            /\ f_Synthesis f = None.
Proof.
  split; [vm_compute; reflexivity|].
  apply (extractSynthesis_nil_discards_depends_on
           synthesis_only_deps synthesis_only_deps_section);
    vm_compute; reflexivity.
Defined.

(** ** The positional line comparator *)

Lemma TrimSpace_empty : strings_TrimSpace EmptyString = EmptyString.
Proof. reflexivity. Qed.

Lemma lineDiff_step (left right : list string) i diffs :
  (let l := default EmptyString (left !! i) in
   let r := default EmptyString (right !! i) in
   if String.eqb (strings_TrimSpace l) (strings_TrimSpace r) then diffs
   else if is_empty (strings_TrimSpace l) && is_empty (strings_TrimSpace r)
   then diffs
   else if length left <=? i
   then diffs ++ [MkLineDiff "added" EmptyString r]
   else if length right <=? i
   then diffs ++ [MkLineDiff "removed" l EmptyString]
   else diffs ++ [MkLineDiff "changed" l r])
  = diffs ++ lineDiffAt left right i.
Proof.
  unfold lineDiffAt. cbv zeta.
  destruct (left !! i) as [l|] eqn:El; destruct (right !! i) as [r|] eqn:Er;
    cbn [default from_option id]; rewrite ?TrimSpace_empty.
  - apply lookup_lt_Some in El. apply lookup_lt_Some in Er.
    destruct (String.eqb_spec (strings_TrimSpace l) (strings_TrimSpace r)) as [E|E];
      [rewrite app_nil_r; reflexivity|].
    destruct (is_empty (strings_TrimSpace l)) eqn:E1;
      destruct (is_empty (strings_TrimSpace r)) eqn:E2; cbn [andb];
      try (apply is_empty_true in E1; apply is_empty_true in E2; congruence);
      destruct (Nat.leb_spec (length left) i); try lia;
      destruct (Nat.leb_spec (length right) i); try lia; reflexivity.
  - apply lookup_lt_Some in El. apply lookup_ge_None in Er.
    destruct (String.eqb_spec (strings_TrimSpace l) EmptyString) as [E|E].
    + rewrite E. cbn. rewrite app_nil_r; reflexivity.
    + apply is_empty_false in E. rewrite E. cbn [andb].
      destruct (Nat.leb_spec (length left) i); try lia.
      destruct (Nat.leb_spec (length right) i); try lia. reflexivity.
  - apply lookup_ge_None in El.
    destruct (String.eqb_spec EmptyString (strings_TrimSpace r)) as [E|E].
    + rewrite <- E. cbn. rewrite app_nil_r; reflexivity.
    + assert (E' : strings_TrimSpace r <> EmptyString) by congruence.
      apply is_empty_false in E'. rewrite E'. cbn [is_empty andb].
      destruct (Nat.leb_spec (length left) i); try lia. reflexivity.
  - cbn. rewrite app_nil_r; reflexivity.
Qed.

Lemma findLineDifferences_loop_concat left right n : forall i diffs,
  findLineDifferences_loop left right i n diffs =
  diffs ++ concat (map (lineDiffAt left right) (seq i n)).
Proof.
  induction n as [|n IH]; intros i diffs.
  - cbn. rewrite app_nil_r; reflexivity.
  - cbn [findLineDifferences_loop seq map concat].
    rewrite lineDiff_step, IH. now rewrite <- app_assoc.
Qed.

(** C8 (amended). The comparator goes through the indices below the longer
    of the two lengths and adds, for each, what [lineDiffAt] says: a missing
    line is read as an empty one; nothing when the two lines are equal once
    trimmed (so also for a blank line that faces a blank or a missing line);
    otherwise "added" with the right line past the end of the left list,
    "removed" with the left line past the end of the right list, and
    "changed" with both lines where both exist. *)
Theorem findLineDifferences_positional (left right : list string) :
  findLineDifferences left right =
  concat (map (lineDiffAt left right)
              (seq 0 (Nat.max (length left) (length right)))).
Proof.
  unfold findLineDifferences.
  replace (if length left <? length right then length right else length left)
    with (Nat.max (length left) (length right))
    by (destruct (Nat.ltb_spec (length left) (length right)); lia).
  now rewrite findLineDifferences_loop_concat.
Qed.

(** C8, as stated, fails: in ["a"] against ["a"; " "] the index 1 is past the
    end of the left list and the right list has a line there, yet no
    difference is reported. *)
Lemma findLineDifferences_blank_line_past_end :
  strings_Split "a" nl = ["a"] /\
  strings_Split ("a" +++ nl +++ " ") nl = ["a"; " "] /\
  findLineDifferences ["a"] ["a"; " "] = [] /\
  ~ added_for_every_index_past_left.
Proof.
  split; [reflexivity|]. split; [reflexivity|]. split; [reflexivity|].
  intros H. specialize (H ["a"] ["a"; " "] 1 " ").
  cbn in H. apply H; [lia|reflexivity].
Qed.

(** ** The short identifier *)

Definition short_char (b4 b3 b2 b1 b0 : bool) : ascii :=
  lower_ascii (base32_char (quintet b4 b3 b2 b1 b0)).

Lemma generateFormulaShortID_bits a0 a1 a2 a3 a4 a5 a6 a7
    b0 b1 b2 b3 b4 b5 b6 b7 c0 c1 c2 c3 c4 c5 c6 c7 :
  generateFormulaShortID
    (Ascii a0 a1 a2 a3 a4 a5 a6 a7, Ascii b0 b1 b2 b3 b4 b5 b6 b7,
     Ascii c0 c1 c2 c3 c4 c5 c6 c7)
  = Some (string_of_chars
            [short_char a7 a6 a5 a4 a3; short_char a2 a1 a0 b7 b6;
             short_char b5 b4 b3 b2 b1; short_char b0 c7 c6 c5 c4;
             short_char c3 c2 c1 c0 false]).
Proof. reflexivity. Qed.

Lemma short_char_inj p4 p3 p2 p1 p0 q4 q3 q2 q1 q0 :
  short_char p4 p3 p2 p1 p0 = short_char q4 q3 q2 q1 q0 ->
  p4 = q4 /\ p3 = q3 /\ p2 = q2 /\ p1 = q1 /\ p0 = q0.
Proof.
  destruct p4, p3, p2, p1, p0, q4, q3, q2, q1, q0; vm_compute; intros H;
    first [ repeat split; reflexivity | discriminate H ].
Qed.

Lemma short_char_alphabet p4 p3 p2 p1 p0 :
  in_cutset (short_char p4 p3 p2 p1 p0) lower_base32_alphabet = true.
Proof. destruct p4, p3, p2, p1, p0; reflexivity. Qed.

Lemma short_char_last p4 p3 p2 p1 :
  in_cutset (short_char p4 p3 p2 p1 false) "acegikmoqsuwy246" = true.
Proof. destruct p4, p3, p2, p1; reflexivity. Qed.

Lemma generateFormulaShortID_inj b b' :
  generateFormulaShortID b = generateFormulaShortID b' -> b = b'.
Proof.
  destruct b as [[[a0 a1 a2 a3 a4 a5 a6 a7] [b0 b1 b2 b3 b4 b5 b6 b7]]
                   [c0 c1 c2 c3 c4 c5 c6 c7]].
  destruct b' as [[[a0' a1' a2' a3' a4' a5' a6' a7'] [b0' b1' b2' b3' b4' b5' b6' b7']]
                   [c0' c1' c2' c3' c4' c5' c6' c7']].
  rewrite !generateFormulaShortID_bits. cbn [string_of_chars].
  intros [= H1 H2 H3 H4 H5].
  apply short_char_inj in H1, H2, H3, H4, H5.
  destruct H1 as (-> & -> & -> & -> & ->), H2 as (-> & -> & -> & -> & ->),
    H3 as (-> & -> & -> & -> & ->), H4 as (-> & -> & -> & -> & ->),
    H5 as (-> & -> & -> & -> & _).
  reflexivity.
Qed.

Lemma generateFormulaShortID_shape b :
  exists id,
    generateFormulaShortID b = Some id /\
    String.length id = 5 /\
    chars_in id lower_base32_alphabet = true /\
    exists c, byte_at id 4 = Some c /\ in_cutset c "acegikmoqsuwy246" = true.
Proof.
  destruct b as [[[a0 a1 a2 a3 a4 a5 a6 a7] [b0 b1 b2 b3 b4 b5 b6 b7]]
                   [c0 c1 c2 c3 c4 c5 c6 c7]].
  rewrite generateFormulaShortID_bits. eexists. split; [reflexivity|].
  cbn [string_of_chars String.length chars_in byte_at].
  rewrite !short_char_alphabet. repeat split.
  eexists. split; [reflexivity|]. apply short_char_last.
Qed.

Lemma bytes3_of_N_inj (n m : N) :
  (n < 2 ^ 24)%N -> (m < 2 ^ 24)%N -> bytes3_of_N n = bytes3_of_N m -> n = m.
Proof.
  intros Hn Hm. unfold bytes3_of_N. intros [= H1 H2 H3].
  change (2 ^ 24)%N with 16777216%N in *.
  assert (B1 : (n / 65536 < 256)%N) by (apply N.Div0.div_lt_upper_bound; lia).
  assert (B1' : (m / 65536 < 256)%N) by (apply N.Div0.div_lt_upper_bound; lia).
  assert (B2 : ((n / 256) mod 256 < 256)%N) by (apply N.mod_upper_bound; lia).
  assert (B2' : ((m / 256) mod 256 < 256)%N) by (apply N.mod_upper_bound; lia).
  assert (B3 : (n mod 256 < 256)%N) by (apply N.mod_upper_bound; lia).
  assert (B3' : (m mod 256 < 256)%N) by (apply N.mod_upper_bound; lia).
  apply (f_equal N_of_ascii) in H1, H2, H3.
  rewrite !N_ascii_embedding in H1, H2, H3 by assumption.
  pose proof (N.div_mod' n 256) as En.
  pose proof (N.div_mod' m 256) as Em.
  pose proof (N.div_mod' (n / 256) 256) as En'.
  pose proof (N.div_mod' (m / 256) 256) as Em'.
  rewrite N.Div0.div_div in En', Em'.
  change (256 * 256)%N with 65536%N in *. lia.
Qed.

Lemma shortID_values_lower_bound (n : N) :
  shortID_values_at_most n -> (2 ^ 24 <= n)%N.
Proof.
  intros (l & Hlen & Hcov).
  set (k := N.to_nat (2 ^ 24)).
  set (g := fun i : nat => generateFormulaShortID (bytes3_of_N (N.of_nat i))).
  assert (Hnd : NoDup (g <$> seq 0 k)).
  { apply NoDup_fmap_2_strong; [|apply NoDup_seq].
    intros x y Hx Hy Hxy. apply elem_of_seq in Hx, Hy.
    apply generateFormulaShortID_inj, bytes3_of_N_inj in Hxy.
    - now apply Nat2N.inj.
    - unfold k in Hx. lia.
    - unfold k in Hy. lia. }
  assert (Hincl : incl (g <$> seq 0 k) (Some <$> l)).
  { intros o Ho. apply list_elem_of_In, list_elem_of_fmap in Ho as (i & -> & _).
    destruct (Hcov (bytes3_of_N (N.of_nat i))) as (id & Hid & Hin).
    unfold g. rewrite Hid. apply list_elem_of_In, list_elem_of_fmap.
    exists id. split; [reflexivity|]. now apply list_elem_of_In. }
  apply NoDup_ListNoDup in Hnd.
  pose proof (NoDup_incl_length Hnd Hincl) as Hle.
  rewrite !length_fmap, length_seq in Hle.
  unfold k in Hle. lia.
Qed.

(** C9 (amended). For every three random bytes the generator returns an
    identifier of exactly five characters, each from the lower-case base-32
    alphabet, the fifth being one of the sixteen characters that encode four
    data bits and a zero bit. The identifier determines the three bytes, so
    the 2^24 inputs give 2^24 distinct identifiers: no list of fewer than
    2^24 strings contains them all. *)
Theorem generateFormulaShortID_values :
  (forall b, exists id,
      generateFormulaShortID b = Some id /\
      String.length id = 5 /\
      chars_in id lower_base32_alphabet = true /\
      exists c, byte_at id 4 = Some c /\ in_cutset c "acegikmoqsuwy246" = true) /\
  (forall b b', generateFormulaShortID b = generateFormulaShortID b' -> b = b') /\
  (forall n, shortID_values_at_most n -> (2 ^ 24 <= n)%N).
Proof.
  split; [exact generateFormulaShortID_shape|].
  split; [exact generateFormulaShortID_inj|].
  exact shortID_values_lower_bound.
Qed.

Lemma generateFormulaShortID_values_witness :
  generateFormulaShortID (ch 0, ch 0, ch 1) = Some "aaaac" /\
  (ch 0, ch 0, ch 1) = bytes3_of_N 1.
Proof.
  split; [reflexivity|].
  apply (proj1 (proj2 generateFormulaShortID_values)). reflexivity.
Defined.

(** C9, as stated, fails: the identifiers are not about 2^15 in number;
    even 2^16 strings cannot contain them all, and two inputs that differ
    only in the last of their 24 bits already give two identifiers. *)
Lemma generateFormulaShortID_more_than_2_16_values :
  ~ shortID_values_at_most (2 ^ 16) /\
  generateFormulaShortID (ch 0, ch 0, ch 0) = Some "aaaaa" /\
  generateFormulaShortID (ch 0, ch 0, ch 1) = Some "aaaac".
Proof.
  split; [|split; reflexivity].
  intros H. apply shortID_values_lower_bound in H. revert H. apply N.lt_nge.
  reflexivity.
Qed.

(** ** The convoy title *)

Lemma length_append (a b : string) :
  String.length (a +++ b) = String.length a + String.length b.
Proof. induction a as [|c a IH]; simpl; [reflexivity|]. now rewrite IH. Qed.

Lemma convoyTitle_spec formulaName description :
  exists t,
    convoyTitle formulaName description = Some t /\
    (80 < String.length (composedTitle formulaName description) ->
     String.length t = 80 /\
     t = take_s 77 (composedTitle formulaName description) +++ "...") /\
    (String.length (composedTitle formulaName description) <= 80 ->
     t = composedTitle formulaName description).
Proof.
  unfold convoyTitle. cbv zeta.
  destruct (Nat.ltb_spec 80 (String.length (composedTitle formulaName description)))
    as [H|H].
  - unfold slice_to. rewrite slice_Some by lia. cbn [mbind option_bind].
    eexists. split; [reflexivity|]. split; [|lia]. intros _.
    cbn [drop_s]. split; [|reflexivity].
    rewrite length_append, length_take_s by lia. reflexivity.
  - eexists. split; [reflexivity|]. split; [lia|]. reflexivity.
Qed.

(** ** Resolution *)

Lemma find_first_split {A} (f : A -> bool) (l : list A) (q : A) :
  List.find f l = Some q ->
  exists pre post, l = pre ++ q :: post /\ f q = true /\
                   Forall (fun x => f x = false) pre.
Proof.
  induction l as [|x l IH]; cbn [List.find]; [discriminate|].
  destruct (f x) eqn:E.
  - intros [= <-]. exists [], l. repeat split; [assumption|constructor].
  - intros Hq. destruct (IH Hq) as (pre & post & -> & Hfq & Hpre).
    exists (x :: pre), post. repeat split; [assumption|]. now constructor.
Qed.

Lemma find_all_false {A} (f : A -> bool) (l : list A) :
  (forall x, In x l -> f x = false) -> List.find f l = None.
Proof.
  induction l as [|x l IH]; cbn [List.find]; [reflexivity|].
  intros Hall. rewrite (Hall x) by (now left). apply IH. intros y Hy.
  apply Hall. now right.
Qed.

Lemma find_app_first {A} (f : A -> bool) (l1 l2 : list A) :
  List.find f (l1 ++ l2) =
  match List.find f l1 with Some x => Some x | None => List.find f l2 end.
Proof.
  induction l1 as [|x l1 IH]; cbn [List.find app]; [reflexivity|].
  now destruct (f x).
Qed.

Section ResolverFacts.
Context {W : Type} `{Platform W}.

Lemma findInDir_find basePath name exts (w : W) :
  findInDir basePath name exts w =
  List.find (fun p => stat_ok (os_Stat p w))
    (map (fun ext => filepath_Join [basePath; name +++ ext]) exts).
Proof.
  induction exts as [|ext rest IH]; cbn [findInDir map List.find]; [reflexivity|].
  now destruct (stat_ok _).
Qed.

Lemma findInDirs_find basePaths name (w : W) :
  findInDirs basePaths name w =
  List.find (fun p => stat_ok (os_Stat p w))
    (flat_map
       (fun basePath =>
          map (fun ext => filepath_Join [basePath; name +++ ext]) extensions)
       basePaths).
Proof.
  induction basePaths as [|b rest IH]; cbn [findInDirs flat_map]; [reflexivity|].
  rewrite find_app_first, findInDir_find, IH. reflexivity.
Qed.

(** C1. A file found in a searched directory wins over the built-in set:
    when one of the paths tried for the name exists, the location returned
    has source file and its path is the first path, in the order of the
    search, that exists. When none of them exists and the built-in set
    has the name, the location has source built-in and its path is the
    bare name. *)
Theorem findFormulaWithSource_precedence (name : string) (w : W) :
  (forall p, In p (candidates name w) -> stat_ok (os_Stat p w) = true ->
     exists q pre post,
       findFormulaWithSource name w = Ok (MkFormulaLocation q FormulaSourceFile) /\
       candidates name w = pre ++ q :: post /\
       stat_ok (os_Stat q w) = true /\
       Forall (fun x => stat_ok (os_Stat x w) = false) pre) /\
  ((forall p, In p (candidates name w) -> stat_ok (os_Stat p w) = false) ->
   EmbeddedFormulaExists name = true ->
   findFormulaWithSource name w = Ok (MkFormulaLocation name FormulaSourceEmbedded)).
Proof.
  unfold findFormulaWithSource. rewrite findInDirs_find. fold (candidates name w).
  split.
  - intros p Hin Hp.
    destruct (List.find _ (candidates name w)) as [q|] eqn:E.
    + destruct (find_first_split _ _ _ E) as (pre & post & Hc & Hq & Hpre).
      exists q, pre, post. repeat split; assumption.
    + pose proof (find_none _ _ E p Hin) as Hnone. cbn beta in Hnone. congruence.
  - intros Hall Hemb. rewrite (find_all_false _ _ Hall), Hemb. reflexivity.
Qed.

End ResolverFacts.

Lemma findFormulaWithSource_precedence_witness :
  (exists q pre post,
     findFormulaWithSource "review"
       (town_world [("/town/.beads/formulas/review.formula.json", "x = 1")])
     = Ok (MkFormulaLocation q FormulaSourceFile) /\
     candidates "review"
       (town_world [("/town/.beads/formulas/review.formula.json", "x = 1")])
     = pre ++ q :: post /\
     stat_ok (os_Stat q (town_world [("/town/.beads/formulas/review.formula.json", "x = 1")]))
     = true /\
     Forall (fun x =>
               stat_ok (os_Stat x
                 (town_world [("/town/.beads/formulas/review.formula.json", "x = 1")]))
               = false) pre) /\
  findFormulaWithSource "review" (town_world [])
  = Ok (MkFormulaLocation "review" FormulaSourceEmbedded).
Proof.
  split.
  - apply (proj1 (findFormulaWithSource_precedence "review"
                    (town_world [("/town/.beads/formulas/review.formula.json", "x = 1")]))
             "/town/.beads/formulas/review.formula.json").
    + vm_compute. tauto.
    + vm_compute. reflexivity.
  - apply (proj2 (findFormulaWithSource_precedence "review" (town_world []))).
    + intros p Hp. vm_compute in Hp.
      repeat (destruct Hp as [<-|Hp]; [vm_compute; reflexivity|]). destruct Hp.
    + vm_compute. reflexivity.
Defined.

(** ** Reset *)

Section ResetFacts.
Context {W : Type} `{Platform W}.



End ResetFacts.


(** ** Update *)

Lemma truncateHash_total hash : is_Some (truncateHash hash).
Proof.
  unfold truncateHash, slice_to.
  destruct (Nat.ltb_spec 12 (String.length hash)); [|eauto].
  rewrite slice_Some by lia. eauto.
Qed.

Lemma buildMergePrompt_total formulaName baseHash currentHash embedded override :
  is_Some (buildMergePrompt formulaName baseHash currentHash embedded override).
Proof.
  unfold buildMergePrompt.
  destruct (truncateHash_total baseHash) as [tb ->].
  destruct (truncateHash_total currentHash) as [tc ->].
  cbn [mbind option_bind]. eauto.
Qed.

Lemma ExtractBaseHash_total content : is_Some (ExtractBaseHash content).
Proof.
  unfold ExtractBaseHash.
  induction (strings_Split content nl) as [|line rest IH];
    cbn [ExtractBaseHash_lines]; [eauto|].
  destruct (strings_HasPrefix _ baseHashPrefix) eqn:E; [|exact IH].
  apply HasPrefix_length in E. unfold slice_from.
  rewrite slice_Some by lia. cbn [mbind option_bind]. eauto.
Qed.

(** Membership in a log written as a chain of appends. *)
Ltac in_log := repeat rewrite in_app_iff; cbn [In]; intuition congruence.

Section UpdateFacts.
Context {W : Type} `{Platform W}.

Lemma GetEmbeddedFormula_exists formulaName embedded :
  GetEmbeddedFormula formulaName = Ok embedded ->
  EmbeddedFormulaExists formulaName = true /\
  GetEmbeddedFormulaHash formulaName = Ok (sha256_hex embedded).
Proof.
  intros Hg. split.
  - unfold GetEmbeddedFormula in Hg. unfold EmbeddedFormulaExists. cbv zeta in *.
    destruct (formulasFS !! _); [reflexivity|discriminate].
  - unfold GetEmbeddedFormulaHash. now rewrite Hg.
Qed.

(** C6. With a recorded baseline hash that is present: when it equals the
    hash of the current built-in, update prints that no update is needed
    and returns; the world is unchanged and the log holds the two lines
    printed and nothing else, so no agent was run and no file written.
    When it differs, update goes on with the merge, and once an agent is
    found it is run with the merge prompt. *)
Theorem runFormulaUpdate_hash_check
    (formulaName townRoot : string) (first : FormulaOverride)
    (others : list FormulaOverride) (overrideContent baseHash embedded : string)
    (formulaUpdateApply : bool) (st : St W) :
  GetEmbeddedFormula formulaName = Ok embedded ->
  findTownRoot (st_world st) = Ok townRoot ->
  scanFormulaOverridesForName townRoot formulaName (st_world st) = first :: others ->
  os_ReadFile (ov_Path (selectOverride first (first :: others))) (st_world st)
  = Ok overrideContent ->
  ExtractBaseHash overrideContent = Some baseHash ->
  baseHash <> EmptyString ->
  (baseHash = sha256_hex embedded ->
   runFormulaUpdate formulaName formulaUpdateApply st
   = Some (None, MkSt (st_world st)
                   (st_log st ++ [checkingFor formulaName; EvPrint noUpdateNeeded]))) /\
  (baseHash <> sha256_hex embedded ->
   runFormulaUpdate formulaName formulaUpdateApply st
   = mergeOverride townRoot formulaName (selectOverride first (first :: others))
       overrideContent baseHash (sha256_hex embedded) formulaUpdateApply
       (MkSt (st_world st) (st_log st ++ [checkingFor formulaName])) /\
   forall agentName agentCmd agentArgs,
     detectFormulaUpdateAgent townRoot (st_world st)
     = Some (Ok (agentName, agentCmd, agentArgs)) ->
     exists prompt e st',
       buildMergePrompt formulaName baseHash (sha256_hex embedded) embedded
         overrideContent = Some prompt /\
       runFormulaUpdate formulaName formulaUpdateApply st = Some (e, st') /\
       exists r,
         In (EvOutput (MkCmd agentCmd (agentArgs ++ [prompt]) EmptyString) r)
            (st_log st')).
Proof.
  intros Hemb Hroot Hscan Hread Hbase Hne.
  destruct (GetEmbeddedFormula_exists _ _ Hemb) as [Hex Hhash].
  assert (Hrun : forall k : string -> M W error,
    runFormulaUpdate formulaName formulaUpdateApply st
    = (if negb (is_empty baseHash) && String.eqb baseHash (sha256_hex embedded)
       then do_ printM noUpdateNeeded; retM None
       else mergeOverride townRoot formulaName (selectOverride first (first :: others))
              overrideContent baseHash (sha256_hex embedded) formulaUpdateApply)
        (MkSt (st_world st) (st_log st ++ [checkingFor formulaName]))).
  { intros _. unfold runFormulaUpdate, bindM, readM, retM, printM, liftM.
    rewrite Hex. cbn [negb st_world]. rewrite Hroot. cbn [st_world].
    rewrite Hscan. cbv zeta. cbn [st_world]. rewrite Hread, Hbase, Hhash.
    reflexivity. }
  specialize (Hrun (fun _ => retM None)).
  apply is_empty_false in Hne. rewrite Hne in Hrun. cbn [negb andb] in Hrun.
  split.
  - intros ->. rewrite String.eqb_refl in Hrun. rewrite Hrun.
    unfold bindM, printM, retM. cbn [st_world st_log].
    now rewrite <- app_assoc.
  - intros Hdiff. apply String.eqb_neq in Hdiff. rewrite Hdiff in Hrun.
    split; [exact Hrun|].
    intros agentName agentCmd agentArgs Hdet.
    destruct (buildMergePrompt_total formulaName baseHash (sha256_hex embedded)
                embedded overrideContent) as [prompt Hprompt].
    exists prompt. rewrite Hrun.
    unfold mergeOverride. rewrite Hemb.
    destruct (truncateHash_total baseHash) as [tb Htb].
    destruct (truncateHash_total (sha256_hex embedded)) as [tc Htc].
    unfold bindM, liftM, readM, printM, retM, outputM, writeFileM, actM.
    rewrite Htb, Htc. cbn [st_world st_log]. rewrite Hdet, Hprompt.
    cbn [st_world st_log].
    destruct (exec_Output (MkCmd agentCmd (agentArgs ++ [prompt]) EmptyString)
                (st_world st)) as [out w1] eqn:Eout.
    cbn [st_world st_log].
    destruct out as [mergedOutput|err].
    2:{ do 2 eexists. split; [reflexivity|]. split; [reflexivity|].
        exists (Err err). cbn [st_log]. in_log. }
    destruct (is_empty (strings_TrimSpace mergedOutput)).
    { do 2 eexists. split; [reflexivity|]. split; [reflexivity|].
      exists (Ok mergedOutput). cbn [st_log]. in_log. }
    destruct formulaUpdateApply.
    + cbn [st_world st_log].
      match goal with
      | |- context [os_WriteFile ?p ?c w1] =>
          destruct (os_WriteFile p c w1) as [[msg|] w2] eqn:Ew1
      end; cbn [st_world st_log].
      { do 2 eexists. split; [reflexivity|]. split; [reflexivity|].
        exists (Ok mergedOutput). cbn [st_log]. in_log. }
      match goal with
      | |- context [os_WriteFile ?p ?c w2] =>
          destruct (os_WriteFile p c w2) as [[msg|] w3] eqn:Ew2
      end; cbn [st_world st_log].
      { do 2 eexists. split; [reflexivity|]. split; [reflexivity|].
        exists (Ok mergedOutput). cbn [st_log]. in_log. }
      do 2 eexists. split; [reflexivity|]. split; [reflexivity|].
      exists (Ok mergedOutput). cbn [st_log]. in_log.
    + do 2 eexists. split; [reflexivity|]. split; [reflexivity|].
      exists (Ok mergedOutput). cbn [st_log]. in_log.
Qed.

End UpdateFacts.

(** ** Convoy execution *)

Section RunFacts.
Context {W : Type} `{Platform W}.

Lemma runs_ret {A} (a : A) (st : St W) P :
  P a [] (st_world st) -> runs (retM a) st P.
Proof.
  intros HP. exists a, st. split; [reflexivity|].
  exists []. now rewrite app_nil_r.
Qed.

Lemma runs_bind {A B} (m : M W A) (k : A -> M W B) (st : St W) P :
  runs m st (fun a evs1 w1 =>
    runs (k a) (MkSt w1 (st_log st ++ evs1))
      (fun b evs2 w2 => P b (evs1 ++ evs2) w2)) ->
  runs (bindM m k) st P.
Proof.
  intros (a & [w1 log1] & Hm & evs1 & Hlog & Hk). cbn [st_world st_log] in *.
  subst log1. destruct Hk as (b & st2 & Hk & evs2 & Hlog2 & HP).
  exists b, st2. unfold bindM. rewrite Hm. split; [exact Hk|].
  exists (evs1 ++ evs2). cbn [st_log] in Hlog2. now rewrite Hlog2, app_assoc.
Qed.

Lemma runs_weaken {A} (m : M W A) (st : St W) (P Q : A -> list event -> W -> Prop) :
  runs m st P -> (forall a evs w, P a evs w -> Q a evs w) -> runs m st Q.
Proof.
  intros (a & st' & Hm & evs & Hlog & HP) HPQ.
  exists a, st'. split; [exact Hm|]. exists evs. auto.
Qed.

Lemma runs_readM {A} (f : W -> A) (st : St W) P :
  P (f (st_world st)) [] (st_world st) -> runs (readM f) st P.
Proof. apply (runs_ret (f (st_world st))). Qed.

Lemma runs_liftM {A} (o : option A) (a : A) (st : St W) P :
  o = Some a -> P a [] (st_world st) -> runs (liftM o) st P.
Proof. intros ->. apply (runs_ret a). Qed.

Lemma runs_actM {A} (f : W -> A * W) (ev : A -> list event) (st : St W) P :
  (forall a w', P a (ev a) w') -> runs (actM f ev) st P.
Proof.
  intros HP. unfold runs, actM. destruct (f (st_world st)) as [a w'].
  exists a, (MkSt w' (st_log st ++ ev a)). split; [reflexivity|].
  exists (ev a). cbn. auto.
Qed.

Lemma runs_printM (s : string) (st : St W) P :
  P tt [EvPrint s] (st_world st) -> runs (printM s) st P.
Proof.
  intros HP. eexists tt, _. split; [reflexivity|]. exists [EvPrint s]. cbn. auto.
Qed.

Lemma runs_freshShortID (st : St W) P :
  (forall id w', P id [] w') -> runs freshShortID st P.
Proof.
  intros HP. unfold freshShortID. apply runs_bind, runs_actM. intros b w'.
  destruct (generateFormulaShortID_shape b) as (id & Hid & _).
  apply (runs_liftM _ id); [exact Hid|]. apply HP.
Qed.

End RunFacts.

Lemma quiet_nil : quiet [].
Proof. repeat split. Qed.

Lemma dependencyEdges_app a b :
  dependencyEdges (a ++ b) = dependencyEdges a ++ dependencyEdges b.
Proof. apply omap_app. Qed.

Lemma createdLegRecords_app a b :
  createdLegRecords (a ++ b) = createdLegRecords a ++ createdLegRecords b.
Proof. apply omap_app. Qed.

Lemma createdSynthesisRecords_app a b :
  createdSynthesisRecords (a ++ b)
  = createdSynthesisRecords a ++ createdSynthesisRecords b.
Proof. apply omap_app. Qed.

Lemma quiet_app a b : quiet a -> quiet b -> quiet (a ++ b).
Proof.
  intros (A1 & A2 & A3) (B1 & B2 & B3). unfold quiet.
  rewrite dependencyEdges_app, createdLegRecords_app, createdSynthesisRecords_app.
  now rewrite A1, A2, A3, B1, B2, B3.
Qed.

Section ConvoyFacts.
Context {W : Type} `{Platform W}.


Lemma create_edges type id title description dir e :
  dependencyEdges [EvRun (bd (createArgs type id title description) dir) e] = [].
Proof. reflexivity. Qed.

Lemma create_leg_failed id title description dir err :
  createdLegRecords
    [EvRun (bd (createArgs "task" id title description) dir) (Some err)] = [].
Proof. reflexivity. Qed.

Lemma create_leg_ok id title description dir :
  createdLegRecords
    [EvRun (bd (createArgs "task" ("hq-leg-" +++ id) title description) dir) None]
  = ["hq-leg-" +++ id].
Proof. reflexivity. Qed.

Lemma create_leg_no_synthesis id title description dir e :
  createdSynthesisRecords
    [EvRun (bd (createArgs "task" ("hq-leg-" +++ id) title description) dir) e] = [].
Proof. destruct e; reflexivity. Qed.

Lemma track_quiet a b dir e :
  quiet [EvRun (bd ["dep"; "add"; a; b; "--type=tracks"] dir) e].
Proof. repeat split. Qed.

Lemma createLegs_runs describe convoyID townBeads legs :
  forall (legBeads : gmap string string) (st : St W),
    NoDup (map leg_ID legs) ->
    (forall l, In l legs -> legBeads !! leg_ID l = None) ->
    runs (createLegs legs describe convoyID townBeads legBeads) st
      (fun legBeads' evs _ =>
         dependencyEdges evs = [] /\
         createdSynthesisRecords evs = [] /\
         Permutation (map snd (map_to_list legBeads'))
           (createdLegRecords evs ++ map snd (map_to_list legBeads))).
Proof.
  induction legs as [|l rest IH]; intros legBeads st Hnd Hfresh.
  - apply runs_ret. repeat split. reflexivity.
  - cbn [createLegs]. cbn [map] in Hnd. apply NoDup_cons in Hnd as [Hl Hnd].
    apply runs_bind, runs_freshShortID. intros id w1.
    apply runs_bind, runs_actM. intros e w2.
    destruct e as [err|].
    + eapply runs_weaken.
      * apply IH; [exact Hnd|]. intros l' Hl'. apply Hfresh. now right.
      * cbn beta. intros legBeads' evs _ (E1 & E2 & E3).
        rewrite !dependencyEdges_app, !createdSynthesisRecords_app,
          !createdLegRecords_app, E1, E2, create_edges, create_leg_failed,
          create_leg_no_synthesis.
        repeat split. exact E3.
    + apply runs_bind, runs_actM. intros e' w3.
      eapply runs_weaken.
      * apply (IH (<[leg_ID l := "hq-leg-" +++ id]> legBeads)); [exact Hnd|].
        intros l' Hl'. rewrite lookup_insert_ne.
        -- apply Hfresh. now right.
        -- intros Heq. apply Hl. rewrite Heq. apply list_elem_of_In.
           now apply in_map.
      * cbn beta. intros legBeads' evs _ (E1 & E2 & E3).
        destruct (track_quiet convoyID ("hq-leg-" +++ id) townBeads e')
          as (T1 & T2 & T3).
        rewrite !dependencyEdges_app, !createdSynthesisRecords_app,
          !createdLegRecords_app, E1, E2, T1, T2, T3, create_edges,
          create_leg_ok, create_leg_no_synthesis.
        repeat split.
        rewrite E3.
        rewrite map_to_list_insert by (apply Hfresh; now left).
        cbn. apply Permutation_sym, Permutation_middle.
Qed.

Lemma createLegs_total describe convoyID townBeads legs :
  forall (legBeads : gmap string string) (st : St W),
    runs (createLegs legs describe convoyID townBeads legBeads) st
      (fun _ _ _ => True).
Proof.
  induction legs as [|l rest IH]; intros legBeads st.
  - now apply runs_ret.
  - cbn [createLegs].
    apply runs_bind, runs_freshShortID. intros id w1.
    apply runs_bind, runs_actM. intros [err|] w2.
    + eapply runs_weaken; [apply IH|]. auto.
    + apply runs_bind, runs_actM. intros e' w3.
      eapply runs_weaken; [apply IH|]. auto.
Qed.

Lemma addDependencies_runs synthesisBeadID townBeads legBeads :
  forall st : St W,
    runs (addDependencies synthesisBeadID townBeads legBeads) st
      (fun _ evs _ =>
         createdLegRecords evs = [] /\
         createdSynthesisRecords evs = [] /\
         dependencyEdges evs = map (pair synthesisBeadID) (map snd legBeads)).
Proof.
  induction legBeads as [|[k legBeadID] rest IH]; intros st.
  - apply runs_ret. repeat split.
  - cbn [addDependencies].
    apply runs_bind, runs_actM. intros e w1.
    eapply runs_weaken; [apply IH|].
    cbn beta. intros _ evs _ (E1 & E2 & E3).
    rewrite dependencyEdges_app, createdSynthesisRecords_app,
      createdLegRecords_app, E1, E2, E3.
    repeat split.
Qed.

Lemma create_synthesis_no_leg id title description dir e :
  createdLegRecords
    [EvRun (bd (createArgs "task" ("hq-syn-" +++ id) title description) dir) e] = [].
Proof. destruct e; reflexivity. Qed.

Lemma create_synthesis_failed id title description dir err :
  createdSynthesisRecords
    [EvRun (bd (createArgs "task" id title description) dir) (Some err)] = [].
Proof. reflexivity. Qed.

Lemma create_synthesis_ok id title description dir :
  createdSynthesisRecords
    [EvRun (bd (createArgs "task" ("hq-syn-" +++ id) title description) dir) None]
  = ["hq-syn-" +++ id].
Proof. reflexivity. Qed.

Lemma createSynthesis_runs f convoyID townBeads (legBeads : gmap string string)
    (st : St W) :
  runs (createSynthesis f convoyID townBeads legBeads) st
    (fun synthesisBeadID evs _ =>
       createdLegRecords evs = [] /\
       ((createdSynthesisRecords evs = [] /\ dependencyEdges evs = []) \/
        (createdSynthesisRecords evs = [synthesisBeadID] /\
         Permutation (dependencyEdges evs)
           (map (pair synthesisBeadID) (map snd (map_to_list legBeads)))))).
Proof.
  unfold createSynthesis. destruct (f_Synthesis f) as [synthesis|].
  2:{ apply runs_ret. split; [reflexivity|]. left. split; reflexivity. }
  apply runs_bind, runs_freshShortID. intros id w1.
  apply runs_bind, runs_actM. intros [err|] w2.
  - apply runs_ret.
    rewrite !createdLegRecords_app, !createdSynthesisRecords_app,
      !dependencyEdges_app, create_edges, create_synthesis_no_leg,
      create_synthesis_failed.
    split; [reflexivity|]. left. split; reflexivity.
  - apply runs_bind, runs_actM. intros e' w3.
    apply runs_bind, runs_readM.
    apply runs_bind. eapply runs_weaken; [apply addDependencies_runs|].
    cbn beta. intros _ evs w4 (E1 & E2 & E3). apply runs_ret.
    destruct (track_quiet convoyID ("hq-syn-" +++ id) townBeads e')
      as (T1 & T2 & T3).
    rewrite !createdLegRecords_app, !createdSynthesisRecords_app,
      !dependencyEdges_app, E1, E2, E3, T1, T2, T3, create_edges,
      create_synthesis_no_leg, create_synthesis_ok.
    split; [reflexivity|]. right. split; [reflexivity|].
    cbn [app]. rewrite !app_nil_r.
    apply Permutation_map, Permutation_map, range_order_perm.
Qed.

Lemma slingLegs_runs targetRig townBeads (legBeads : gmap string string) legs :
  forall (slingCount : nat) (st : St W),
    runs (slingLegs legs targetRig townBeads legBeads slingCount) st
      (fun _ evs _ => quiet evs).
Proof.
  induction legs as [|l rest IH]; intros slingCount st.
  - apply runs_ret, quiet_nil.
  - cbn [slingLegs]. destruct (legBeads !! leg_ID l) as [legBeadID|].
    2:{ eapply runs_weaken; [apply IH|]. auto. }
    apply runs_bind, runs_actM. intros [err|] w1.
    + apply runs_bind, runs_actM. intros e' w2.
      eapply runs_weaken; [apply IH|].
      cbn beta. intros _ evs _ Hq.
      apply quiet_app; [repeat split|]. apply quiet_app; [repeat split|exact Hq].
    + eapply runs_weaken; [apply IH|].
      cbn beta. intros _ evs _ Hq. apply quiet_app; [repeat split|exact Hq].
Qed.

Lemma create_convoy_quiet id title description dir e :
  quiet [EvRun (bd (createArgs "convoy" id title description) dir) e].
Proof. destruct e; repeat split. Qed.

Lemma executeConvoyFormula_runs f formulaName targetRig formulaRunPR
    (st : St W) townRoot :
  workspace_FindFromCwd (st_world st) = Ok townRoot ->
  runs (executeConvoyFormula f formulaName targetRig formulaRunPR) st
    (fun _ evs _ =>
       exists id t e0 rest,
         convoyTitle formulaName (f_Description f) = Some t /\
         evs = EvRun (bd (createArgs "convoy" ("hq-cv-" +++ id) t
                            (convoyDescription formulaName (length (f_Legs f))
                               targetRig formulaRunPR))
                         (filepath_Join [townRoot; ".beads"])) e0 :: rest /\
         (NoDup (map leg_ID (f_Legs f)) ->
          (createdSynthesisRecords evs = [] /\ dependencyEdges evs = []) \/
          exists synthesisBeadID,
            createdSynthesisRecords evs = [synthesisBeadID] /\
            Permutation (dependencyEdges evs)
              (map (pair synthesisBeadID) (createdLegRecords evs)))).
Proof.
  intros Hroot. unfold executeConvoyFormula.
  apply runs_bind, runs_readM. rewrite Hroot.
  apply runs_bind, runs_freshShortID. intros id w1.
  destruct (convoyTitle_spec formulaName (f_Description f)) as (t & Ht & _).
  apply runs_bind, (runs_liftM _ t); [exact Ht|].
  apply runs_bind, runs_actM. intros [err|] w2.
  { apply runs_ret. exists id, t, (Some err), []. split; [exact Ht|].
    split; [reflexivity|]. intros _. left. split; reflexivity. }
  apply runs_bind, runs_freshShortID. intros reviewID w3.
  apply runs_bind.
  apply (runs_weaken _ _ (fun _ evs _ => evs = [])).
  { destruct (0 <? formulaRunPR)%Z; [apply runs_actM|apply runs_ret]; auto. }
  intros [prTitle changedFiles] evsPR w4 ->.
  apply runs_bind.
  apply (runs_weaken _ _ (fun _ evs _ => quiet evs)).
  { destruct (f_Output f) as [output|]; [|apply runs_ret, quiet_nil].
    destruct (negb (is_empty (out_Directory output)));
      [|apply runs_ret, quiet_nil].
    apply runs_bind, runs_actM. intros e w5. apply runs_ret.
    apply quiet_app; [repeat split|apply quiet_nil]. }
  intros outputDir evsDir w5 (D1 & D2 & D3).
  set (describe := legDescription _ _ _ _ _ _ _ _).
  destruct (decide (NoDup (map leg_ID (f_Legs f)))) as [Hnd|Hdup].
  - apply runs_bind. eapply runs_weaken.
    { apply createLegs_runs; [exact Hnd|]. intros; apply lookup_empty. }
    cbn beta. intros legBeads evsLegs w6 (L1 & L2 & L3).
    rewrite map_to_list_empty in L3. cbn [map] in L3. rewrite app_nil_r in L3.
    apply runs_bind. eapply runs_weaken; [apply createSynthesis_runs|].
    cbn beta. intros synthesisBeadID evsSyn w7 (S1 & S2).
    apply runs_bind. eapply runs_weaken; [apply slingLegs_runs|].
    cbn beta. intros slingCount evsSling w8 (G1 & G2 & G3).
    apply runs_bind, runs_printM. apply runs_bind, runs_printM.
    apply runs_bind.
    apply (runs_weaken _ _ (fun _ evs _ => quiet evs)).
    { destruct (negb (is_empty synthesisBeadID));
        [apply runs_printM; repeat split|apply runs_ret, quiet_nil]. }
    intros _ evsP w9 (P1 & P2 & P3).
    apply runs_bind, runs_printM. apply runs_ret.
    exists id, t, None. eexists. split; [exact Ht|]. split; [reflexivity|].
    intros _.
    destruct (create_convoy_quiet ("hq-cv-" +++ id) t
                (convoyDescription formulaName (length (f_Legs f)) targetRig
                   formulaRunPR) (filepath_Join [townRoot; ".beads"]) None)
      as (C1 & C2 & C3).
    rewrite !createdSynthesisRecords_app, !dependencyEdges_app,
      !createdLegRecords_app.
    rewrite C1, C2, C3, D1, D2, D3, L1, L2, S1, G1, G2, G3, P1, P2, P3.
    cbn [app omap list_omap createdSynthesisRecords dependencyEdges
           createdLegRecords createdSynthesisRecord dependencyEdge
           createdLegRecord].
    rewrite !app_nil_r.
    destruct S2 as [[S2 S3]|[S2 S3]]; rewrite S2.
    + rewrite S3. left. split; reflexivity.
    + right. exists synthesisBeadID. split; [reflexivity|].
      cbn [app]. etransitivity; [exact S3|].
      apply Permutation_map. exact L3.
  - apply runs_bind. eapply runs_weaken; [apply createLegs_total|].
    cbn beta. intros legBeads evsLegs w6 _.
    apply runs_bind. eapply runs_weaken; [apply createSynthesis_runs|].
    cbn beta. intros synthesisBeadID evsSyn w7 _.
    apply runs_bind. eapply runs_weaken; [apply slingLegs_runs|].
    cbn beta. intros slingCount evsSling w8 _.
    apply runs_bind, runs_printM. apply runs_bind, runs_printM.
    apply runs_bind.
    apply (runs_weaken _ _ (fun _ _ _ => True)).
    { destruct (negb (is_empty synthesisBeadID));
        [now apply runs_printM|now apply runs_ret]. }
    intros _ evsP w9 _.
    apply runs_bind, runs_printM. apply runs_ret.
    exists id, t, None. eexists. split; [exact Ht|]. split; [reflexivity|].
    intros Hnd. contradiction.
Qed.

(** C5. The title of the convoy record is the composed title cut to
    eighty characters: when [<formula-name>: <description>] has more than
    eighty characters, the title has exactly eighty, its first 77 followed
    by three dots; otherwise it is the composed title itself. It is the
    title that the run, which does not panic, gives to [bd create] as its
    first action. *)
Theorem executeConvoyFormula_title_truncated
    (f : formulaData) (formulaName targetRig : string) (formulaRunPR : Z)
    (st : St W) (townRoot : string) :
  workspace_FindFromCwd (st_world st) = Ok townRoot ->
  exists t,
    convoyTitle formulaName (f_Description f) = Some t /\
    (80 < String.length (composedTitle formulaName (f_Description f)) ->
     String.length t = 80 /\
     t = take_s 77 (composedTitle formulaName (f_Description f)) +++ "...") /\
    (String.length (composedTitle formulaName (f_Description f)) <= 80 ->
     t = composedTitle formulaName (f_Description f)) /\
    runs (executeConvoyFormula f formulaName targetRig formulaRunPR) st
      (fun _ evs _ =>
         exists c e0 rest,
           evs = EvRun c e0 :: rest /\
           cmd_Name c = "bd" /\
           cmd_Args c !! 0 = Some "create" /\
           cmd_Args c !! 1 = Some "--type=convoy" /\
           cmd_Args c !! 3 = Some ("--title=" +++ t)).
Proof.
  intros Hroot.
  destruct (convoyTitle_spec formulaName (f_Description f)) as (t & Ht & Hlong & Hshort).
  exists t. repeat split; try tauto.
  eapply runs_weaken; [apply executeConvoyFormula_runs, Hroot|].
  cbn beta. intros _ evs _ (id & t' & e0 & rest & Ht' & -> & _).
  assert (t' = t) as -> by congruence.
  eexists _, e0, rest. repeat split.
Qed.

(** C2 (amended). When the ids of the legs are pairwise distinct, a run
    (which does not panic) that creates the synthesis record adds, from
    that record, one dependency edge to each leg record whose creation
    succeeded and no other edge, whatever [depends_on] lists; a run that
    creates no synthesis record adds no dependency edge. *)
Theorem executeConvoyFormula_synthesis_depends_on_created_legs
    (f : formulaData) (formulaName targetRig : string) (formulaRunPR : Z)
    (st : St W) (townRoot : string) :
  workspace_FindFromCwd (st_world st) = Ok townRoot ->
  NoDup (map leg_ID (f_Legs f)) ->
  runs (executeConvoyFormula f formulaName targetRig formulaRunPR) st
    (fun _ evs _ =>
       (createdSynthesisRecords evs = [] /\ dependencyEdges evs = []) \/
       exists synthesisBeadID,
         createdSynthesisRecords evs = [synthesisBeadID] /\
         Permutation (dependencyEdges evs)
           (map (pair synthesisBeadID) (createdLegRecords evs))).
Proof.
  intros Hroot Hnd.
  eapply runs_weaken; [apply executeConvoyFormula_runs, Hroot|].
  cbn beta. intros _ evs _ (id & t & e0 & rest & _ & _ & Hdeps). auto.
Qed.

End ConvoyFacts.

Lemma executeConvoyFormula_title_truncated_witness :
  exists t,
    convoyTitle "code-review" (f_Description long_convoy) = Some t /\
    (80 < String.length (composedTitle "code-review" (f_Description long_convoy)) ->
     String.length t = 80 /\
     t = take_s 77 (composedTitle "code-review" (f_Description long_convoy)) +++ "...") /\
    (String.length (composedTitle "code-review" (f_Description long_convoy)) <= 80 ->
     t = composedTitle "code-review" (f_Description long_convoy)) /\
    runs (executeConvoyFormula long_convoy "code-review" "alpha" 0%Z)
      (sim_start (town_world []))
      (fun _ evs _ =>
         exists c e0 rest,
           evs = EvRun c e0 :: rest /\
           cmd_Name c = "bd" /\
           cmd_Args c !! 0 = Some "create" /\
           cmd_Args c !! 1 = Some "--type=convoy" /\
           cmd_Args c !! 3 = Some ("--title=" +++ t)).
Proof.
  apply (executeConvoyFormula_title_truncated long_convoy "code-review" "alpha" 0%Z
           (sim_start (town_world [])) "/town").
  reflexivity.
Defined.

Lemma executeConvoyFormula_synthesis_depends_on_created_legs_witness :
  syn_DependsOn <$> f_Synthesis three_legs = Some ["sec"] /\
  runs (executeConvoyFormula three_legs "review" "alpha" 0%Z) (sim_start flaky_store)
    (fun _ evs _ =>
       (createdSynthesisRecords evs = [] /\ dependencyEdges evs = []) \/
       exists synthesisBeadID,
         createdSynthesisRecords evs = [synthesisBeadID] /\
         Permutation (dependencyEdges evs)
           (map (pair synthesisBeadID) (createdLegRecords evs))).
Proof.
  split; [reflexivity|].
  apply (executeConvoyFormula_synthesis_depends_on_created_legs three_legs "review"
           "alpha" 0%Z (sim_start flaky_store) "/town").
  - reflexivity.
  - apply (bool_decide_unpack _). vm_compute. exact I.
Defined.

(** C2, as stated, fails: with two legs of the same id, both records are
    created and the synthesis record gets a single dependency edge, to the
    second of them. *)
Lemma executeConvoyFormula_twin_legs_single_edge :
  exists st',
    parseFormulaContent twin_legs_text = Some (twin_legs, None) /\
    executeConvoyFormula twin_legs "review" "alpha" 0%Z (sim_start (town_world []))
    = Some (None, st') /\
    createdSynthesisRecords (st_log st') = ["hq-syn-aaaai"] /\
    createdLegRecords (st_log st') = ["hq-leg-aaaae"; "hq-leg-aaaag"] /\
    dependencyEdges (st_log st') = [("hq-syn-aaaai", "hq-leg-aaaag")] /\
    ~ Permutation (map snd (dependencyEdges (st_log st')))
        (createdLegRecords (st_log st')).
Proof.
  eexists. split; [vm_compute; reflexivity|].
  split; [vm_compute; reflexivity|].
  cbn [st_log]. repeat split; try (vm_compute; reflexivity).
  intros Hp. apply Permutation_length in Hp. vm_compute in Hp. discriminate.
Qed.

Lemma runFormulaUpdate_hash_check_witness :
  runFormulaUpdate "review" true (sim_start current_override)
  = Some (None, MkSt current_override [checkingFor "review"; EvPrint noUpdateNeeded]) /\
  exists prompt e st',
    buildMergePrompt "review" "123" (sha256_hex builtin_review) builtin_review
      (override_of "123" "x = 2") = Some prompt /\
    runFormulaUpdate "review" true (sim_start both_overrides) = Some (e, st') /\
    exists r, In (EvOutput (MkCmd "claude" (["-p"] ++ [prompt]) EmptyString) r)
                 (st_log st').
Proof.
  split.
  - apply (proj1 (@runFormulaUpdate_hash_check SimWorld simPlatform "review" "/town" town_override []
                    (override_of (sim_digest builtin_review) "x = 1")
                    (sim_digest builtin_review) builtin_review true
                    (sim_start current_override)
                    ltac:(vm_compute; reflexivity) ltac:(vm_compute; reflexivity)
                    ltac:(vm_compute; reflexivity) ltac:(vm_compute; reflexivity)
                    ltac:(vm_compute; reflexivity)
                    ltac:(vm_compute; discriminate))).
    vm_compute; reflexivity.
  - refine (proj2 (proj2 (@runFormulaUpdate_hash_check SimWorld simPlatform "review"
                    "/town" town_override
                    [alpha_override] (override_of "123" "x = 2") "123"
                    builtin_review true (sim_start both_overrides)
                    ltac:(vm_compute; reflexivity) ltac:(vm_compute; reflexivity)
                    ltac:(vm_compute; reflexivity) ltac:(vm_compute; reflexivity)
                    ltac:(vm_compute; reflexivity)
                    ltac:(discriminate)) _) "claude" "claude" ["-p"] _).
    + vm_compute. discriminate.
    + vm_compute; reflexivity.
Defined.

(** The parser on a text with a leg block that has no id. *)
Example extractLegs_legs_with_missing_id :
  legBlocks legs_with_missing_id
  = Some [ FormulaLeg "sec" "Security" EmptyString EmptyString;
           FormulaLeg EmptyString "Untitled" "everything" "a block without id" ] /\
  extractLegs legs_with_missing_id
  = Some [ FormulaLeg "sec" "Security" EmptyString EmptyString ].
Proof. split; vm_compute; reflexivity. Qed.

Example TrimSpace_unicode :
  strings_TrimSpace ("  a b " +++ bytes_s [9; 194; 160; 226; 128; 138]) = "a b".
Proof. vm_compute; reflexivity. Qed.

Example Split_trailing_newline :
  strings_Split ("a" +++ nl) nl = ["a"; EmptyString].
Proof. vm_compute; reflexivity. Qed.

Example base32_rfc4648_vectors :
  base32_EncodeToString "f" = "MY======" /\
  base32_EncodeToString "foo" = "MZXW6===" /\
  base32_EncodeToString "foobar" = "MZXW6YTBOI======".
Proof. repeat split; vm_compute; reflexivity. Qed.

Example findLineDifferences_sample :
  findLineDifferences ["a"; "b "; "c"] ["a"; " b"; "d"; "e"]
  = [ MkLineDiff "changed" "c" "d"; MkLineDiff "added" EmptyString "e" ].
Proof. vm_compute; reflexivity. Qed.

Lemma extractLegs_drops_blocks_without_id_witness :
  exists blocks legs f,
    legBlocks legs_with_missing_id = Some blocks /\
    extractLegs legs_with_missing_id = Some legs /\
    legs = filter (fun l => leg_ID l <> EmptyString) blocks /\
    Forall (fun l => leg_ID l <> EmptyString) legs /\
    (forall b, leg_ID b = EmptyString -> ~ In b legs) /\
    parseFormulaContent legs_with_missing_id = Some (f, None) /\ f_Legs f = legs.
Proof. exact (extractLegs_drops_blocks_without_id legs_with_missing_id). Defined.
